(** * do-app-starter: session-backed JWT authentication and resource access

    A shallow embedding of the Node/Express backend:
    - [src/middleware/auth.js]  (token issuance, validation, sessions)
    - [routes/auth.js]          (signup, login, logout, refresh)
    - [routes/items.js]         (item reads, create, update, delete,
                                 listing of uploads)
    - [src/routes/users.js]     (profile, password change, own items,
                                 account deletion)
    - the PostgreSQL schema     (tables, UNIQUE / FOREIGN KEY / CHECK)

    Conventions of the model.
    - The relational store is a record of row lists.  A [SELECT] is a
      [filter], a [DELETE] keeps the complement, an [INSERT] appends and is
      [None] when a constraint of the table rejects it.  Connection failures
      are not modelled, so the [catch] branches are reached only through a
      rejected statement or a read off an empty result.
    - Time is the number of milliseconds since the epoch.  Every clock read
      made while one request is served ([Date.now()], [new Date()], SQL
      [NOW()] and [CURRENT_TIMESTAMP]) returns the [now] handed to the
      handler, and a calendar day has 86 400 000 ms (the server runs on UTC).
      Nothing relates the [now] of one request to that of another:
      [Date.now()] is wall-clock time.
    - Request bodies carry strings; [None] is [undefined].
    - The third-party packages [jsonwebtoken] and [bcryptjs] are interfaces
      ([JwtLib], [BcryptLib]); what the handlers rely on is stated as
      [JwtContract], and [Reference] implements both. *)

From Stdlib Require Import ZArith List String Ascii Bool Lia.
From Stdlib Require Import DecimalString DecimalZ.
From Stdlib Require Import Sorted Permutation.
Import ListNotations.

Local Open Scope string_scope.
Local Open Scope Z_scope.

(* ================================================================== *)
(** ** JavaScript values *)

(** [String(n)] for an integer, as produced by a template literal. *)
Definition js_number_to_string (n : Z) : string :=
  NilZero.string_of_int (Z.to_int n).

(** [s.startsWith(p)] *)
Definition startsWith (s p : string) : bool := String.prefix p s.

(** [s.substring(n)]: everything from index [n] on. *)
Definition substring_from (n : nat) (s : string) : string :=
  String.substring n (String.length s - n) s.

(** Truthiness of a possibly-undefined string: [undefined] and [''] are falsy. *)
Definition truthy_string (v : option string) : bool :=
  match v with
  | Some s => negb (String.eqb s "")
  | None => false
  end.

(** Truthiness of a nullable integer column: [null] and [0] are falsy. *)
Definition truthy_int (v : option Z) : bool :=
  match v with
  | Some n => negb (n =? 0)
  | None => false
  end.

(** [a !== b] on a nullable integer and an integer. *)
Definition strict_neq (a : option Z) (b : Z) : bool :=
  match a with
  | Some n => negb (n =? b)
  | None => true
  end.

(** [v.length] of a JavaScript string (strings are sequences of code units). *)
Definition js_length (s : string) : Z := Z.of_nat (String.length s).

(** [s.toLowerCase()] on the letters [A]-[Z]; other code units are kept. *)
Definition lower_ascii (c : ascii) : ascii :=
  let n := nat_of_ascii c in
  if (65 <=? n)%nat && (n <=? 90)%nat then ascii_of_nat (n + 32) else c.

Fixpoint toLowerCase (s : string) : string :=
  match s with
  | EmptyString => EmptyString
  | String c r => String (lower_ascii c) (toLowerCase r)
  end.

(* ================================================================== *)
(** ** Third-party packages *)

(** The object handed to [jwt.sign]. *)
Record payload := mkPayload {
  p_id : Z;
  p_email : string;
  p_jti : string
}.

(** The object returned by [jwt.verify]: the payload plus the registered
    claims [iat] and [exp] (seconds). *)
Record claims := mkClaims {
  c_id : Z;
  c_email : string;
  c_jti : string;
  c_iat : Z;
  c_exp : Z
}.

(** [jsonwebtoken], and the payload segment of a compact token as read by
    [JSON.parse(Buffer.from(token.split('.')[1], 'base64').toString())].
    [jwt_sign p secret expiresIn now]; [jwt_verify token secret now] is
    [None] when the package throws. *)
Class JwtLib := {
  jwt_sign : payload -> string -> Z -> Z -> string;
  jwt_verify : string -> string -> Z -> option claims;
  jwt_payload : string -> option claims
}.

(** The claims a token signed at [now] (ms) with a validity of [expiresIn]
    seconds carries. *)
Definition signed_claims (p : payload) (expiresIn now : Z) : claims :=
  {| c_id := p_id p;
     c_email := p_email p;
     c_jti := p_jti p;
     c_iat := now / 1000;
     c_exp := now / 1000 + expiresIn |}.

(** What the handlers rely on: a token verifies under the secret it was
    signed with until its [exp] second is reached, its payload segment
    decodes to the signed claims, and the only thing the clock decides about
    a token is whether its [exp] second has been reached. *)
Class JwtContract `{JwtLib} : Prop := {
  jwt_verify_clock : forall token secret t t' c,
    jwt_verify token secret t = Some c ->
    jwt_verify token secret t' =
      if t' / 1000 <? c_exp c then Some c else None;
  jwt_verify_sign : forall p secret expiresIn t t',
    jwt_verify (jwt_sign p secret expiresIn t) secret t' =
      if t' / 1000 <? t / 1000 + expiresIn
      then Some (signed_claims p expiresIn t)
      else None;
  jwt_payload_sign : forall p secret expiresIn t,
    jwt_payload (jwt_sign p secret expiresIn t) =
      Some (signed_claims p expiresIn t)
}.

(** [bcryptjs]: [bcrypt.hash(password, rounds)] and
    [bcrypt.compare(password, hash)]. *)
Class BcryptLib := {
  bcrypt_hash : string -> Z -> string;
  bcrypt_compare : string -> string -> bool
}.

(** [process.env] *)
Class Env := {
  env_JWT_SECRET : option string
}.

(* ================================================================== *)
(** ** The relational store (schema.sql) *)

Record user_row := mkUser {
  u_id : Z;
  u_email : string;
  u_password_hash : string;
  u_name : option string;
  u_avatar_url : option string;
  u_created_at : Z;
  u_updated_at : Z;
  u_last_login : option Z
}.

Record session_row := mkSession {
  s_id : Z;
  s_user_id : Z;
  s_token_jti : string;
  s_expires_at : Z;
  s_created_at : Z
}.

Record item_row := mkItem {
  i_id : Z;
  i_name : string;
  i_description : option string;
  i_user_id : option Z;
  i_metadata : string;
  i_created_at : Z;
  i_updated_at : Z
}.

Record upload_row := mkUpload {
  up_id : Z;
  up_user_id : option Z;
  up_item_id : option Z;
  up_filename : string;
  up_file_url : string;
  up_file_size : option Z;
  up_content_type : option string;
  up_created_at : Z
}.

(** [sessions_id_seq] is the sequence behind [sessions.id SERIAL]. *)
Record database := mkDb {
  users : list user_row;
  sessions : list session_row;
  items : list item_row;
  uploads : list upload_row;
  sessions_id_seq : Z
}.

Definition set_users (db : database) (us : list user_row) : database :=
  {| users := us; sessions := sessions db; items := items db;
     uploads := uploads db; sessions_id_seq := sessions_id_seq db |}.

Definition set_sessions (db : database) (ss : list session_row) : database :=
  {| users := users db; sessions := ss; items := items db;
     uploads := uploads db; sessions_id_seq := sessions_id_seq db |}.

Definition set_items (db : database) (its : list item_row) : database :=
  {| users := users db; sessions := sessions db; items := its;
     uploads := uploads db; sessions_id_seq := sessions_id_seq db |}.

Definition set_uploads (db : database) (ups : list upload_row) : database :=
  {| users := users db; sessions := sessions db; items := items db;
     uploads := ups; sessions_id_seq := sessions_id_seq db |}.

(** [x = $1] on a nullable integer column ([NULL = n] is never true). *)
Definition sql_eq (col : option Z) (n : Z) : bool :=
  match col with
  | Some m => m =? n
  | None => false
  end.

(** [SELECT ... FROM users WHERE id = $1] *)
Definition select_user_by_id (id : Z) (db : database) : list user_row :=
  filter (fun u => u_id u =? id) (users db).

(** [SELECT ... FROM items WHERE id = $1] *)
Definition select_item_by_id (id : Z) (db : database) : list item_row :=
  filter (fun i => i_id i =? id) (items db).

(** [ORDER BY created_at DESC] *)
Fixpoint insert_desc (x : item_row) (l : list item_row) : list item_row :=
  match l with
  | [] => [x]
  | y :: t =>
      if i_created_at y <? i_created_at x then x :: l
      else y :: insert_desc x t
  end.

Definition order_by_created_at_desc (l : list item_row) : list item_row :=
  fold_right insert_desc [] l.

(** [INSERT INTO sessions (user_id, token_jti, expires_at) VALUES ($1, $2, $3)]
    under the table's constraints: [token_jti UNIQUE], [user_id REFERENCES
    users(id)], [CHECK (expires_at > created_at)] with [created_at DEFAULT
    CURRENT_TIMESTAMP].  [None] is the statement failing. *)
Definition insert_session (userId : Z) (tokenJti : string) (expiresAt : Z)
    (now : Z) (db : database) : option database :=
  if existsb (fun s => String.eqb (s_token_jti s) tokenJti) (sessions db)
  then None
  else if negb (existsb (fun u => u_id u =? userId) (users db))
  then None
  else if negb (now <? expiresAt)
  then None
  else
    Some {| users := users db;
            sessions := sessions db ++
              [ {| s_id := sessions_id_seq db;
                   s_user_id := userId;
                   s_token_jti := tokenJti;
                   s_expires_at := expiresAt;
                   s_created_at := now |} ];
            items := items db;
            uploads := uploads db;
            sessions_id_seq := sessions_id_seq db + 1 |}.

(* ================================================================== *)
(** ** src/middleware/auth.js *)

Section Middleware.
Context `{JwtLib} `{Env}.

(** [process.env.JWT_SECRET || 'your-secret-key-change-in-production'] *)
Definition JWT_SECRET : string :=
  match env_JWT_SECRET with
  | Some s => if String.eqb s "" then "your-secret-key-change-in-production" else s
  | None => "your-secret-key-change-in-production"
  end.

(** ['7d'], in the seconds [jsonwebtoken] adds to [iat]. *)
Definition JWT_EXPIRES_IN : Z := 7 * 86400.

(** The template literal [`${user.id}-${Date.now()}`]. *)
Definition jti_of (userId now : Z) : string :=
  js_number_to_string userId ++ "-" ++ js_number_to_string now.

(** [generateToken(user)]; only [user.id] and [user.email] are read. *)
Definition generateToken (userId : Z) (email : string) (now : Z) : string :=
  jwt_sign {| p_id := userId; p_email := email; p_jti := jti_of userId now |}
           JWT_SECRET JWT_EXPIRES_IN now.

(** [verifyToken(token)]: the decoded claims, or [null] when [jwt.verify]
    throws. *)
Definition verifyToken (token : string) (now : Z) : option claims :=
  jwt_verify token JWT_SECRET now.

(** The columns [id, email, name, avatar_url, created_at] that the
    middleware attaches as [req.user]. *)
Record req_user := mkReqUser {
  r_id : Z;
  r_email : string;
  r_name : option string;
  r_avatar_url : option string;
  r_created_at : Z
}.

Definition public_columns (u : user_row) : req_user :=
  {| r_id := u_id u; r_email := u_email u; r_name := u_name u;
     r_avatar_url := u_avatar_url u; r_created_at := u_created_at u |}.

(** What a middleware does with the request: call [next()] with
    [req.user] and [req.token] set, or answer with a status and a code. *)
Inductive auth_outcome :=
| Next (user : req_user) (token : claims)
| Rejected (status : Z) (code : string).

(** [SELECT id FROM sessions WHERE token_jti = $1 AND expires_at > NOW()] *)
Definition sessionCheck (jti : string) (now : Z) (db : database)
    : list session_row :=
  filter (fun s => String.eqb (s_token_jti s) jti && (now <? s_expires_at s))
         (sessions db).

(** [authenticate(req, res, next)], [authHeader] being
    [req.headers.authorization]. *)
Definition authenticate (authHeader : option string) (now : Z) (db : database)
    : auth_outcome :=
  match authHeader with
  | None => Rejected 401 "NO_TOKEN"
  | Some h =>
      if negb (truthy_string authHeader) || negb (startsWith h "Bearer ")
      then Rejected 401 "NO_TOKEN"
      else
        let token := substring_from 7 h in
        match verifyToken token now with
        | None => Rejected 401 "INVALID_TOKEN"
        | Some decoded =>
            match sessionCheck (c_jti decoded) now db with
            | [] => Rejected 401 "SESSION_EXPIRED"
            | _ :: _ =>
                match select_user_by_id (c_id decoded) db with
                | [] => Rejected 401 "USER_NOT_FOUND"
                | u :: _ => Next (public_columns u) decoded
                end
            end
        end
  end.

(** [optionalAuth(req, res, next)]: always calls [next()]; the result is
    the [(req.user, req.token)] it set, if any. *)
Definition optionalAuth (authHeader : option string) (now : Z) (db : database)
    : option (req_user * claims) :=
  match authHeader with
  | None => None
  | Some h =>
      if truthy_string authHeader && startsWith h "Bearer "
      then
        let token := substring_from 7 h in
        match verifyToken token now with
        | Some decoded =>
            match select_user_by_id (c_id decoded) db with
            | u :: _ => Some (public_columns u, decoded)
            | [] => None
            end
        | None => None
        end
      else None
  end.

(** [createSession(userId, tokenJti, expiresInDays = 7)]: [setDate(getDate()
    + expiresInDays)] moves the instant by that many days of 86 400 000 ms. *)
Definition createSession (userId : Z) (tokenJti : string) (expiresInDays : Z)
    (now : Z) (db : database) : option database :=
  let expiresAt := now + expiresInDays * 86400000 in
  insert_session userId tokenJti expiresAt now db.

(** [revokeSession(tokenJti)]: [DELETE FROM sessions WHERE token_jti = $1] *)
Definition revokeSession (tokenJti : string) (db : database) : database :=
  set_sessions db
    (filter (fun s => negb (String.eqb (s_token_jti s) tokenJti)) (sessions db)).

(** [cleanupExpiredSessions()]: [DELETE FROM sessions WHERE expires_at <
    NOW()]; the second component is [result.rowCount]. *)
Definition cleanupExpiredSessions (now : Z) (db : database) : database * Z :=
  (set_sessions db (filter (fun s => negb (s_expires_at s <? now)) (sessions db)),
   Z.of_nat (List.length (filter (fun s => s_expires_at s <? now) (sessions db)))).

(* ------------------------------------------------------------------ *)
(** ** What every response carries in this development *)

(** The four columns of the anonymous listing. *)
Record item_summary := mkSummary {
  sm_id : Z;
  sm_name : string;
  sm_description : option string;
  sm_created_at : Z
}.

Inductive response :=
| RespError (status : Z) (code : string)
| RespMessage (status : Z) (message : string)
| RespToken (status : Z) (token : string)
| RespSession (status : Z) (token : string) (user : req_user)
| RespItems (status : Z) (rows : list item_row)
| RespSummaries (status : Z) (rows : list item_summary)
| RespItem (status : Z) (row : option item_row).

(** [router.METHOD(path, authenticate, handler)] *)
Definition protected
    (handler : req_user -> claims -> Z -> database -> response * database)
    (authHeader : option string) (now : Z) (db : database)
    : response * database :=
  match authenticate authHeader now db with
  | Rejected st code => (RespError st code, db)
  | Next user token => handler user token now db
  end.

(* ------------------------------------------------------------------ *)
(** ** routes/auth.js *)

(** The issuance sequence shared by signup, login and refresh:
    [generateToken(user)], the decoding of the token's payload segment, and
    [createSession(user.id, tokenData.jti)].  [None] is an exception
    reaching the handler's [catch]. *)
Definition issue (userId : Z) (email : string) (now : Z) (db : database)
    : option (string * database) :=
  let token := generateToken userId email now in
  match jwt_payload token with
  | None => None
  | Some tokenData =>
      match createSession userId (c_jti tokenData) 7 now db with
      | None => None
      | Some db' => Some (token, db')
      end
  end.

(** [POST /api/auth/logout] *)
Definition logout_handler (user : req_user) (token : claims) (now : Z)
    (db : database) : response * database :=
  (RespMessage 200 "Logged out successfully", revokeSession (c_jti token) db).

Definition post_auth_logout := protected logout_handler.

(** [POST /api/auth/refresh]: the state kept when issuance throws is the one
    reached after the old session was revoked. *)
Definition refresh_handler (user : req_user) (token : claims) (now : Z)
    (db : database) : response * database :=
  let db1 := revokeSession (c_jti token) db in
  match issue (r_id user) (r_email user) now db1 with
  | None => (RespError 500 "REFRESH_ERROR", db1)
  | Some (newToken, db2) => (RespToken 200 newToken, db2)
  end.

Definition post_auth_refresh := protected refresh_handler.

End Middleware.

(* ================================================================== *)
(** ** routes/items.js and src/routes/users.js *)

Section Routes.
Context `{JwtLib} `{Env} `{BcryptLib}.

(** The fields of [req.body] read by [POST /api/auth/login]. *)
Record login_body := mkLoginBody {
  login_email : option string;
  login_password : option string
}.

(** [UPDATE users SET last_login = NOW() WHERE id = $1]; the table's
    [BEFORE UPDATE] trigger stamps [updated_at]. *)
Definition set_last_login (id : Z) (now : Z) (u : user_row) : user_row :=
  if u_id u =? id
  then {| u_id := u_id u; u_email := u_email u;
          u_password_hash := u_password_hash u;
          u_name := u_name u; u_avatar_url := u_avatar_url u;
          u_created_at := u_created_at u; u_updated_at := now;
          u_last_login := Some now |}
  else u.

(** [POST /api/auth/login] (routes/auth.js).  The answer carries the
    selected row without its [password_hash]. *)
Definition post_auth_login (body : login_body) (now : Z) (db : database)
    : response * database :=
  if negb (truthy_string (login_email body)) ||
     negb (truthy_string (login_password body))
  then (RespError 400 "MISSING_FIELDS", db)
  else
    match login_email body, login_password body with
    | Some email, Some password =>
        match filter (fun u => String.eqb (u_email u) (toLowerCase email))
                     (users db) with
        | [] => (RespError 401 "INVALID_CREDENTIALS", db)
        | user :: _ =>
            if negb (bcrypt_compare password (u_password_hash user))
            then (RespError 401 "INVALID_CREDENTIALS", db)
            else
              let db1 :=
                set_users db (map (set_last_login (u_id user) now) (users db)) in
              match issue (u_id user) (u_email user) now db1 with
              | None => (RespError 500 "LOGIN_ERROR", db1)
              | Some (token, db2) =>
                  (RespSession 200 token (public_columns user), db2)
              end
        end
    | _, _ => (RespError 400 "MISSING_FIELDS", db)
    end.

(** The columns [id, name, description, created_at]. *)
Definition summary_columns (i : item_row) : item_summary :=
  {| sm_id := i_id i; sm_name := i_name i;
     sm_description := i_description i; sm_created_at := i_created_at i |}.

(** [GET /api/items] behind [optionalAuth]: with [req.user] set,
    [SELECT * FROM items WHERE user_id = $1 ORDER BY created_at DESC];
    otherwise [SELECT id, name, description, created_at FROM items ORDER BY
    created_at DESC LIMIT 10]. *)
Definition get_items (authHeader : option string) (now : Z) (db : database)
    : response :=
  match optionalAuth authHeader now db with
  | Some (user, _) =>
      RespItems 200
        (order_by_created_at_desc
           (filter (fun i => sql_eq (i_user_id i) (r_id user)) (items db)))
  | None =>
      RespSummaries 200
        (map summary_columns
             (firstn 10 (order_by_created_at_desc (items db))))
  end.

(** The body of [GET /api/items/:id], [user] being [req.user]. *)
Definition get_item_handler (id : Z) (user : option req_user) (db : database)
    : response :=
  match select_item_by_id id db with
  | [] => RespError 404 "NOT_FOUND"
  | item :: _ =>
      if truthy_int (i_user_id item) &&
         match user with
         | None => true
         | Some u => strict_neq (i_user_id item) (r_id u)
         end
      then RespError 403 "FORBIDDEN"
      else RespItem 200 (Some item)
  end.

(** [GET /api/items/:id] behind [optionalAuth]. *)
Definition get_item (id : Z) (authHeader : option string) (now : Z)
    (db : database) : response :=
  get_item_handler id (option_map fst (optionalAuth authHeader now db)) db.

(** The fields of [req.body] read by [PUT /api/items/:id]; [None] is
    [undefined]. *)
Record item_update := mkItemUpdate {
  upd_name : option string;
  upd_description : option string;
  upd_metadata : option string
}.

Definition apply_update (b : item_update) (now : Z) (i : item_row) : item_row :=
  {| i_id := i_id i;
     i_name := match upd_name b with Some n => n | None => i_name i end;
     i_description :=
       match upd_description b with
       | Some d => Some d
       | None => i_description i
       end;
     i_user_id := i_user_id i;
     i_metadata := match upd_metadata b with Some m => m | None => i_metadata i end;
     i_created_at := i_created_at i;
     i_updated_at := now |}.

(** [PUT /api/items/:id] after [authenticate]; the answer carries
    [result.rows[0]] of [UPDATE ... RETURNING *]. *)
Definition put_item_handler (id : Z) (body : item_update)
    (user : req_user) (token : claims) (now : Z) (db : database)
    : response * database :=
  match select_item_by_id id db with
  | [] => (RespError 404 "NOT_FOUND", db)
  | row :: _ =>
      if strict_neq (i_user_id row) (r_id user)
      then (RespError 403 "FORBIDDEN", db)
      else
        match upd_name body, upd_description body, upd_metadata body with
        | None, None, None => (RespError 400 "NO_UPDATES", db)
        | _, _, _ =>
            let db' :=
              set_items db
                (map (fun i => if i_id i =? id then apply_update body now i else i)
                     (items db)) in
            (RespItem 200 (hd_error (select_item_by_id id db')), db')
        end
  end.

Definition put_item (id : Z) (body : item_update) :=
  protected (put_item_handler id body).

(** [DELETE /api/items/:id] after [authenticate].  The object store is not
    part of the state: [deleteFromSpaces] touches no table and its failure is
    swallowed.  [DELETE FROM items WHERE id = $1] cascades to [uploads]. *)
Definition delete_item_handler (id : Z)
    (user : req_user) (token : claims) (now : Z) (db : database)
    : response * database :=
  match select_item_by_id id db with
  | [] => (RespError 404 "NOT_FOUND", db)
  | row :: _ =>
      if strict_neq (i_user_id row) (r_id user)
      then (RespError 403 "FORBIDDEN", db)
      else
        (RespMessage 200 "Item deleted successfully",
         set_uploads
           (set_items db (filter (fun i => negb (i_id i =? id)) (items db)))
           (filter (fun u => negb (sql_eq (up_item_id u) id)) (uploads db)))
  end.

Definition delete_item (id : Z) := protected (delete_item_handler id).

(** The fields of [req.body] read by [PUT /api/users/me/password]. *)
Record password_body := mkPasswordBody {
  current_password : option string;
  new_password : option string
}.

Definition set_password (id : Z) (newHash : string) (now : Z) (u : user_row)
    : user_row :=
  if u_id u =? id
  then {| u_id := u_id u; u_email := u_email u; u_password_hash := newHash;
          u_name := u_name u; u_avatar_url := u_avatar_url u;
          u_created_at := u_created_at u; u_updated_at := now;
          u_last_login := u_last_login u |}
  else u.

(** [PUT /api/users/me/password] after [authenticate].  Reading
    [result.rows[0].password_hash] off an empty result throws, which the
    handler's [catch] answers with 500. *)
Definition put_users_me_password_handler (body : password_body)
    (user : req_user) (token : claims) (now : Z) (db : database)
    : response * database :=
  if negb (truthy_string (current_password body)) ||
     negb (truthy_string (new_password body))
  then (RespError 400 "MISSING_FIELDS", db)
  else
    match current_password body, new_password body with
    | Some current, Some new =>
        if js_length new <? 8
        then (RespError 400 "WEAK_PASSWORD", db)
        else
          match select_user_by_id (r_id user) db with
          | [] => (RespError 500 "PASSWORD_ERROR", db)
          | row :: _ =>
              if negb (bcrypt_compare current (u_password_hash row))
              then (RespError 401 "INVALID_PASSWORD", db)
              else
                let newHash := bcrypt_hash new 10 in
                (RespMessage 200 "Password updated successfully",
                 set_users db (map (set_password (r_id user) newHash now) (users db)))
          end
    | _, _ => (RespError 400 "MISSING_FIELDS", db)
    end.

Definition put_users_me_password (body : password_body) :=
  protected (put_users_me_password_handler body).

(** [DELETE FROM users WHERE id = $1] with the [ON DELETE CASCADE] of
    [items.user_id], [sessions.user_id], [uploads.user_id] and
    [uploads.item_id]. *)
Definition delete_user_cascade (id : Z) (db : database) : database :=
  let gone (i : item_row) := sql_eq (i_user_id i) id in
  {| users := filter (fun u => negb (u_id u =? id)) (users db);
     sessions := filter (fun s => negb (s_user_id s =? id)) (sessions db);
     items := filter (fun i => negb (gone i)) (items db);
     uploads :=
       filter (fun u =>
                 negb (sql_eq (up_user_id u) id) &&
                 negb (existsb (fun i => gone i && sql_eq (up_item_id u) (i_id i))
                               (items db)))
              (uploads db);
     sessions_id_seq := sessions_id_seq db |}.

(** [DELETE /api/users/me] after [authenticate]; [password] is
    [req.body.password]. *)
Definition delete_users_me_handler (password : option string)
    (user : req_user) (token : claims) (now : Z) (db : database)
    : response * database :=
  if negb (truthy_string password)
  then (RespError 400 "MISSING_PASSWORD", db)
  else
    match password with
    | Some pw =>
        match select_user_by_id (r_id user) db with
        | [] => (RespError 500 "DELETE_ERROR", db)
        | row :: _ =>
            if negb (bcrypt_compare pw (u_password_hash row))
            then (RespError 401 "INVALID_PASSWORD", db)
            else (RespMessage 200 "Account deleted successfully",
                  delete_user_cascade (r_id user) db)
        end
    | None => (RespError 400 "MISSING_PASSWORD", db)
    end.

Definition delete_users_me (password : option string) :=
  protected (delete_users_me_handler password).

(* ------------------------------------------------------------------ *)
(** ** The optional middleware as the specification words it *)

(** "Identical to Validate but downgrades every failure mode to no identity
    attached": the identity [authenticate] would attach, and nothing when
    [authenticate] would answer itself. *)
Definition optionalAuth_spec (authHeader : option string) (now : Z)
    (db : database) : option (req_user * claims) :=
  match authenticate authHeader now db with
  | Next user token => Some (user, token)
  | Rejected _ _ => None
  end.

End Routes.

(* ================================================================== *)
(** ** A reference implementation of the package interfaces

    A length-prefixed token format under which the contract holds; it gives
    the development a concrete instance to run the handlers on. *)

Module Reference.

(** Unary length prefix of a field: one ["1"] per character, then ["0"]. *)
Fixpoint write_len (s : string) : string :=
  match s with
  | EmptyString => "0"
  | String _ r => String "1" (write_len r)
  end.

Definition write_field (s : string) : string := write_len s ++ s.

Fixpoint read_len (s : string) : option (nat * string) :=
  match s with
  | String c r =>
      if Ascii.eqb c "1" then
        match read_len r with
        | Some (n, r') => Some (S n, r')
        | None => None
        end
      else if Ascii.eqb c "0" then Some (O, r)
      else None
  | EmptyString => None
  end.

Fixpoint take (n : nat) (s : string) : option (string * string) :=
  match n with
  | O => Some (EmptyString, s)
  | S m =>
      match s with
      | String c r =>
          match take m r with
          | Some (a, b) => Some (String c a, b)
          | None => None
          end
      | EmptyString => None
      end
  end.

Definition read_field (s : string) : option (string * string) :=
  match read_len s with
  | Some (n, r) => take n r
  | None => None
  end.

(** Integers in binary, least significant bit first, behind a sign letter. *)
Fixpoint write_pos (p : positive) : string :=
  match p with
  | xH => EmptyString
  | xO q => String "0" (write_pos q)
  | xI q => String "1" (write_pos q)
  end.

Definition write_Z (z : Z) : string :=
  match z with
  | Z0 => "z"
  | Zpos p => String "p" (write_pos p)
  | Zneg p => String "n" (write_pos p)
  end.

Fixpoint read_pos (s : string) : option positive :=
  match s with
  | EmptyString => Some xH
  | String c r =>
      match read_pos r with
      | Some q =>
          if Ascii.eqb c "0" then Some (xO q)
          else if Ascii.eqb c "1" then Some (xI q)
          else None
      | None => None
      end
  end.

Definition read_Z (s : string) : option Z :=
  match s with
  | String c r =>
      if Ascii.eqb c "z" then
        match r with EmptyString => Some Z0 | _ => None end
      else if Ascii.eqb c "p" then option_map Zpos (read_pos r)
      else if Ascii.eqb c "n" then option_map Zneg (read_pos r)
      else None
  | EmptyString => None
  end.

(** A token: the signing secret, then the five claims. *)
Definition encode (secret : string) (c : claims) : string :=
  write_field secret ++
  write_field (write_Z (c_id c)) ++
  write_field (c_email c) ++
  write_field (c_jti c) ++
  write_field (write_Z (c_iat c)) ++
  write_field (write_Z (c_exp c)).

Definition decode (token : string) : option (string * claims) :=
  match read_field token with
  | Some (secret, r1) =>
  match read_field r1 with
  | Some (fid, r2) =>
  match read_field r2 with
  | Some (email, r3) =>
  match read_field r3 with
  | Some (jti, r4) =>
  match read_field r4 with
  | Some (fiat, r5) =>
  match read_field r5 with
  | Some (fexp, EmptyString) =>
      match read_Z fid, read_Z fiat, read_Z fexp with
      | Some id, Some iat, Some exp => Some (secret, mkClaims id email jti iat exp)
      | _, _, _ => None
      end
  | _ => None
  end | None => None end | None => None end | None => None end
  | None => None end | None => None end.

Definition sign (p : payload) (secret : string) (expiresIn now : Z) : string :=
  encode secret (signed_claims p expiresIn now).

Definition verify (token secret : string) (now : Z) : option claims :=
  match decode token with
  | Some (key, c) =>
      if String.eqb key secret && (now / 1000 <? c_exp c) then Some c else None
  | None => None
  end.

Definition unverified (token : string) : option claims :=
  option_map snd (decode token).

#[export] Instance jwt : JwtLib :=
  {| jwt_sign := sign; jwt_verify := verify; jwt_payload := unverified |}.

#[export] Instance bcrypt : BcryptLib :=
  {| bcrypt_hash := fun pw _ => "$2a$" ++ pw;
     bcrypt_compare := fun pw h => String.eqb h ("$2a$" ++ pw) |}.

(** No [JWT_SECRET] in the environment. *)
#[export] Instance env : Env := {| env_JWT_SECRET := None |}.

End Reference.

(* ================================================================== *)
(** ** Requests and sample data *)

(** The header [Authorization: Bearer <token>]. *)
Definition bearer (token : string) : option string :=
  Some ("Bearer " ++ token).

Module Sample.
Import Reference.

Definition alice : user_row :=
  {| u_id := 1; u_email := "a@b.com"; u_password_hash := "$2a$Test123!";
     u_name := Some "A"; u_avatar_url := None;
     u_created_at := 100; u_updated_at := 100; u_last_login := None |}.

Definition bob : user_row :=
  {| u_id := 2; u_email := "b@b.com"; u_password_hash := "$2a$Secret42!";
     u_name := Some "B"; u_avatar_url := None;
     u_created_at := 200; u_updated_at := 200; u_last_login := None |}.

(** Item 1 belongs to bob; item 2 is a legacy row without owner. *)
Definition item_x : item_row :=
  {| i_id := 1; i_name := "X"; i_description := None; i_user_id := Some 2;
     i_metadata := "{}"; i_created_at := 300; i_updated_at := 300 |}.

Definition item_legacy : item_row :=
  {| i_id := 2; i_name := "Sample Item 1"; i_description := None;
     i_user_id := None; i_metadata := "{}";
     i_created_at := 50; i_updated_at := 50 |}.

(** Two users, two items, nobody logged in. *)
Definition db0 : database :=
  {| users := [alice; bob]; sessions := []; items := [item_x; item_legacy];
     uploads := []; sessions_id_seq := 1 |}.

(** Alice's token as generated at millisecond 1000, and the row
    [createSession] stores for it. *)
Definition alice_token : string := generateToken 1 "a@b.com" 1000.

Definition alice_session : session_row :=
  {| s_id := 1; s_user_id := 1; s_token_jti := "1-1000";
     s_expires_at := 1000 + 7 * 86400000; s_created_at := 1000 |}.

Definition alice_claims : claims :=
  {| c_id := 1; c_email := "a@b.com"; c_jti := "1-1000";
     c_iat := 1; c_exp := 1 + 604800 |}.

(** The credentials alice logs in with. *)
Definition alice_login : login_body :=
  {| login_email := Some "A@b.com"; login_password := Some "Test123!" |}.

(** [db0] with the session a login of alice at millisecond 1000 stores. *)
Definition db1 : database :=
  {| users := [alice; bob]; sessions := [alice_session];
     items := [item_x; item_legacy]; uploads := []; sessions_id_seq := 2 |}.

Definition bob_token : string := generateToken 2 "b@b.com" 2000.

Definition bob_claims : claims :=
  {| c_id := 2; c_email := "b@b.com"; c_jti := "2-2000";
     c_iat := 2; c_exp := 2 + 604800 |}.

Definition bob_session : session_row :=
  {| s_id := 2; s_user_id := 2; s_token_jti := "2-2000";
     s_expires_at := 2000 + 7 * 86400000; s_created_at := 2000 |}.

(** Alice and bob both logged in. *)
Definition db2 : database :=
  {| users := [alice; bob]; sessions := [alice_session; bob_session];
     items := [item_x; item_legacy]; uploads := []; sessions_id_seq := 3 |}.

(** A session whose [expires_at] is exactly the instant of the sweep. *)
Definition boundary_session : session_row :=
  {| s_id := 7; s_user_id := 1; s_token_jti := "1-5";
     s_expires_at := 5000; s_created_at := 5 |}.

Definition past_session : session_row :=
  {| s_id := 8; s_user_id := 2; s_token_jti := "2-6";
     s_expires_at := 4999; s_created_at := 6 |}.

Definition db_sweep : database :=
  set_sessions db0 [boundary_session; past_session; alice_session].

End Sample.

(* ================================================================== *)
(** * The remaining routes *)

(** ** Regular expressions ([RegExp.prototype.test] on an anchored pattern)

    The patterns of the source are anchored at both ends, so [test] is a
    match of the whole string.  Matching is by derivatives. *)

Inductive regex :=
| Never
| Empty
| Char (p : ascii -> bool)
| Seq (r1 r2 : regex)
| Alt (r1 r2 : regex)
| Star (r : regex).

(** [r+] *)
Definition Plus (r : regex) : regex := Seq r (Star r).

Fixpoint nullable (r : regex) : bool :=
  match r with
  | Never => false
  | Empty => true
  | Char _ => false
  | Seq r1 r2 => nullable r1 && nullable r2
  | Alt r1 r2 => nullable r1 || nullable r2
  | Star _ => true
  end.

Fixpoint deriv (c : ascii) (r : regex) : regex :=
  match r with
  | Never => Never
  | Empty => Never
  | Char p => if p c then Empty else Never
  | Seq r1 r2 =>
      if nullable r1
      then Alt (Seq (deriv c r1) r2) (deriv c r2)
      else Seq (deriv c r1) r2
  | Alt r1 r2 => Alt (deriv c r1) (deriv c r2)
  | Star r1 => Seq (deriv c r1) (Star r1)
  end.

Fixpoint regex_test (r : regex) (s : string) : bool :=
  match s with
  | EmptyString => nullable r
  | String c s' => regex_test (deriv c r) s'
  end.

(** [\s] on code units below 256: tab, line feed, vertical tab, form feed,
    carriage return, space and no-break space. *)
Definition is_space (c : ascii) : bool :=
  let n := nat_of_ascii c in
  ((9 <=? n)%nat && (n <=? 13)%nat) || (n =? 32)%nat || (n =? 160)%nat.

(** [[^\s@]] *)
Definition not_space_or_at (c : ascii) : bool :=
  negb (is_space c || Ascii.eqb c "@").

(** [/^[^\s@]+@[^\s@]+\.[^\s@]+$/] (routes/auth.js, signup) *)
Definition emailRegex : regex :=
  Seq (Plus (Char not_space_or_at))
      (Seq (Char (Ascii.eqb "@"))
           (Seq (Plus (Char not_space_or_at))
                (Seq (Char (Ascii.eqb "."))
                     (Plus (Char not_space_or_at))))).

(** The strings a pattern denotes. *)
Inductive matches : regex -> string -> Prop :=
| MEmpty : matches Empty ""
| MChar p c : p c = true -> matches (Char p) (String c "")
| MSeq r1 r2 s1 s2 :
    matches r1 s1 -> matches r2 s2 -> matches (Seq r1 r2) (s1 ++ s2)
| MAltL r1 r2 s : matches r1 s -> matches (Alt r1 r2) s
| MAltR r1 r2 s : matches r2 s -> matches (Alt r1 r2) s
| MStar0 r : matches (Star r) ""
| MStarS r s1 s2 :
    matches r s1 -> matches (Star r) s2 -> matches (Star r) (s1 ++ s2).

(** Every character of [s] satisfies [p]. *)
Fixpoint all_chars (p : ascii -> bool) (s : string) : bool :=
  match s with
  | EmptyString => true
  | String c r => p c && all_chars p r
  end.

(** ** More of the packages and of the store *)

(** What login relies on after a signup or a password change: a hash
    verifies the password it was made from. *)
Class BcryptContract `{BcryptLib} : Prop := {
  bcrypt_compare_hash : forall password rounds,
    bcrypt_compare password (bcrypt_hash password rounds) = true
}.

(** An answer whose body is not one of [response]'s. *)
Inductive reply (A : Type) :=
| Ok (status : Z) (body : A)
| Fail (status : Z) (code : string).
Arguments Ok {A} status body.
Arguments Fail {A} status code.


(** [INSERT INTO items (name, description, user_id, metadata) VALUES ...]
    under [id SERIAL PRIMARY KEY] and [user_id REFERENCES users(id)]. *)
Definition insert_item (newId : Z) (name : string) (description : option string)
    (userId : Z) (metadata : string) (now : Z) (db : database)
    : option database :=
  if existsb (fun i => i_id i =? newId) (items db) then None
  else if negb (existsb (fun u => u_id u =? userId) (users db)) then None
  else
    Some (set_items db
            (items db ++
               [ {| i_id := newId; i_name := name;
                    i_description := description; i_user_id := Some userId;
                    i_metadata := metadata; i_created_at := now;
                    i_updated_at := now |} ])).

(** Newest first: the order of [ORDER BY created_at DESC]. *)
Definition newer_first (a b : item_row) : Prop :=
  i_created_at b <= i_created_at a.

(** [ORDER BY created_at DESC] on uploads. *)
Fixpoint insert_upload_desc (x : upload_row) (l : list upload_row)
    : list upload_row :=
  match l with
  | [] => [x]
  | y :: t =>
      if up_created_at y <? up_created_at x then x :: l
      else y :: insert_upload_desc x t
  end.

Definition order_uploads_by_created_at_desc (l : list upload_row)
    : list upload_row :=
  fold_right insert_upload_desc [] l.

Section MoreRoutes.
Context `{JwtLib} `{Env} `{BcryptLib}.

(** [router.METHOD(path, authenticate, handler)] for the answers of
    [reply]. *)
Definition guarded {A : Type}
    (handler : req_user -> claims -> Z -> database -> reply A * database)
    (authHeader : option string) (now : Z) (db : database)
    : reply A * database :=
  match authenticate authHeader now db with
  | Rejected st code => (Fail st code, db)
  | Next user token => handler user token now db
  end.


(** [v || null] on a possibly-undefined string. *)
Definition or_null (v : option string) : option string :=
  if truthy_string v then v else None.


(** The fields of [req.body] read by [POST /api/items]. *)
Record item_body := mkItemBody {
  new_name : option string;
  new_description : option string;
  new_metadata : option string
}.

(** [POST /api/items] after [authenticate]; [newId] is the id the insert
    returns. *)
Definition post_item_handler (body : item_body) (newId : Z)
    (user : req_user) (token : claims) (now : Z) (db : database)
    : response * database :=
  match new_name body with
  | Some name =>
      if negb (truthy_string (new_name body))
      then (RespError 400 "MISSING_NAME", db)
      else
        let metadata :=
          match new_metadata body with
          | Some m => if truthy_string (new_metadata body) then m else "{}"
          | None => "{}"
          end in
        match insert_item newId name (or_null (new_description body))
                          (r_id user) metadata now db with
        | None => (RespError 500 "CREATE_ERROR", db)
        | Some db' => (RespItem 201 (hd_error (select_item_by_id newId db')), db')
        end
  | None => (RespError 400 "MISSING_NAME", db)
  end.

Definition post_item (body : item_body) (newId : Z) :=
  protected (post_item_handler body newId).

(** [GET /api/items/:id/uploads] after [authenticate]. *)
Definition get_item_uploads_handler (id : Z)
    (user : req_user) (token : claims) (now : Z) (db : database)
    : reply (list upload_row) * database :=
  match select_item_by_id id db with
  | [] => (Fail 404 "NOT_FOUND", db)
  | row :: _ =>
      if strict_neq (i_user_id row) (r_id user)
      then (Fail 403 "FORBIDDEN", db)
      else
        (Ok 200 (order_uploads_by_created_at_desc
                   (filter (fun u => sql_eq (up_item_id u) id) (uploads db))),
         db)
  end.

Definition get_item_uploads (id : Z) := guarded (get_item_uploads_handler id).

(** [GET /api/users/me] after [authenticate]. *)
Definition get_users_me_handler
    (user : req_user) (token : claims) (now : Z) (db : database)
    : reply req_user * database :=
  (Ok 200 user, db).

Definition get_users_me := guarded get_users_me_handler.






(** [GET /api/users/me/items] after [authenticate]. *)
Definition get_users_me_items_handler
    (user : req_user) (token : claims) (now : Z) (db : database)
    : response * database :=
  (RespItems 200
     (order_by_created_at_desc
        (filter (fun i => sql_eq (i_user_id i) (r_id user)) (items db))),
   db).

Definition get_users_me_items := protected get_users_me_items_handler.

End MoreRoutes.

(** More sample data: requests for the remaining routes. *)
Module MoreSample.
Import Reference Sample.



Definition item_y_body : item_body :=
  {| new_name := Some "Y"; new_description := Some "of alice";
     new_metadata := None |}.

Definition item_y : item_row :=
  {| i_id := 3; i_name := "Y"; i_description := Some "of alice";
     i_user_id := Some 1; i_metadata := "{}";
     i_created_at := 1000; i_updated_at := 1000 |}.

Definition upload_x : upload_row :=
  {| up_id := 1; up_user_id := Some 2; up_item_id := Some 1;
     up_filename := "x.png";
     up_file_url := "https://bucket.nyc3.digitaloceanspaces.com/items/1/5-x.png";
     up_file_size := Some 3; up_content_type := Some "image/png";
     up_created_at := 2500 |}.

(** [db2] with an upload attached to bob's item and an item of alice. *)
Definition db3 : database :=
  {| users := [alice; bob]; sessions := [alice_session; bob_session];
     items := [item_x; item_legacy; item_y]; uploads := [upload_x];
     sessions_id_seq := 3 |}.





End MoreSample.

(* ================================================================== *)
(** * Properties *)

(** ** Strings and lists *)

Lemma substring_all (s : string) : String.substring 0 (String.length s) s = s.
Proof.
  induction s as [|c s IH]; simpl; [reflexivity | now rewrite IH].
Qed.

Lemma startsWith_bearer (token : string) :
  startsWith ("Bearer " ++ token) "Bearer " = true.
Proof.
  unfold startsWith. simpl. destruct token; reflexivity.
Qed.

Lemma substring_from_bearer (token : string) :
  substring_from 7 ("Bearer " ++ token) = token.
Proof.
  unfold substring_from. simpl. rewrite Nat.sub_0_r. apply substring_all.
Qed.

Lemma filter_nil_iff {A} (f : A -> bool) (l : list A) :
  filter f l = [] <-> forall x, In x l -> f x = false.
Proof.
  induction l as [|a l IH]; simpl.
  - split; [intros _ x [] | reflexivity].
  - destruct (f a) eqn:E.
    + split; [discriminate | intros Hx; specialize (Hx a (or_introl eq_refl)); congruence].
    + rewrite IH. split.
      * intros Hl x [<- | Hin]; auto.
      * intros Hx x Hin. apply Hx. now right.
Qed.

Lemma filter_hd_sat {A} (f : A -> bool) (l : list A) (x : A) (r : list A) :
  filter f l = x :: r -> f x = true /\ In x l.
Proof.
  intros E. assert (Hin : In x (filter f l)) by (rewrite E; now left).
  apply filter_In in Hin. tauto.
Qed.

Lemma existsb_filter_cons {A} (f : A -> bool) (l : list A) :
  existsb f l = true -> exists x r, filter f l = x :: r.
Proof.
  induction l as [|a l IH]; simpl; [discriminate|].
  destruct (f a) eqn:E; [eauto | simpl; exact IH].
Qed.

(** ** The authentication middleware *)

Section MiddlewareFacts.
Context `{JwtLib} `{Env}.

(** On a well-formed bearer header the middleware is its three lookups. *)
Lemma authenticate_bearer (token : string) (now : Z) (db : database) :
  authenticate (bearer token) now db =
    match verifyToken token now with
    | None => Rejected 401 "INVALID_TOKEN"
    | Some decoded =>
        match sessionCheck (c_jti decoded) now db with
        | [] => Rejected 401 "SESSION_EXPIRED"
        | _ :: _ =>
            match select_user_by_id (c_id decoded) db with
            | [] => Rejected 401 "USER_NOT_FOUND"
            | u :: _ => Next (public_columns u) decoded
            end
        end
    end.
Proof.
  unfold authenticate, bearer.
  rewrite startsWith_bearer, substring_from_bearer. reflexivity.
Qed.

Lemma optionalAuth_bearer (token : string) (now : Z) (db : database) :
  optionalAuth (bearer token) now db =
    match verifyToken token now with
    | Some decoded =>
        match select_user_by_id (c_id decoded) db with
        | u :: _ => Some (public_columns u, decoded)
        | [] => None
        end
    | None => None
    end.
Proof.
  unfold optionalAuth, bearer.
  rewrite startsWith_bearer, substring_from_bearer. reflexivity.
Qed.

(** The middleware only ever answers 401 itself. *)
Lemma authenticate_rejects_with_401 hdr now db st code :
  authenticate hdr now db = Rejected st code -> st = 401.
Proof.
  unfold authenticate. intros E.
  destruct hdr as [h|]; [|congruence].
  destruct (negb (truthy_string (Some h)) || negb (startsWith h "Bearer "));
    [congruence|].
  destruct (verifyToken _ _); [|congruence].
  destruct (sessionCheck _ _ _); [congruence|].
  destruct (select_user_by_id _ _); congruence.
Qed.

(** What [next()] being reached tells about the store. *)
Lemma authenticate_Next_inv hdr now db user token :
  authenticate hdr now db = Next user token ->
  exists h row rest srow,
    hdr = Some h /\
    verifyToken (substring_from 7 h) now = Some token /\
    In srow (sessions db) /\ s_token_jti srow = c_jti token /\
    now < s_expires_at srow /\
    select_user_by_id (c_id token) db = row :: rest /\
    user = public_columns row /\ r_id user = c_id token.
Proof.
  unfold authenticate. intros E.
  destruct hdr as [h|]; [|discriminate].
  destruct (negb (truthy_string (Some h)) || negb (startsWith h "Bearer "));
    [discriminate|].
  destruct (verifyToken _ _) as [d|] eqn:V; [|discriminate].
  destruct (sessionCheck _ _ _) as [|srow ss] eqn:S; [discriminate|].
  destruct (select_user_by_id _ _) as [|row rest] eqn:U; [discriminate|].
  injection E as <- <-.
  apply filter_hd_sat in S. destruct S as [Hs Hin].
  apply andb_true_iff in Hs. destruct Hs as [Hj Ht].
  apply String.eqb_eq in Hj. apply Z.ltb_lt in Ht.
  pose proof (filter_hd_sat _ _ _ _ U) as [Hid _]. apply Z.eqb_eq in Hid.
  exists h, row, rest, srow. repeat split; auto.
Qed.

(** A request the middleware lets through reaches the handler. *)
Lemma protected_Next handler hdr now db user tk :
  authenticate hdr now db = Next user tk ->
  protected handler hdr now db = handler user tk now db.
Proof. intros A. unfold protected. now rewrite A. Qed.

Lemma sessions_revokeSession jti db s :
  In s (sessions (revokeSession jti db)) <->
  In s (sessions db) /\ s_token_jti s <> jti.
Proof.
  unfold revokeSession. simpl. rewrite filter_In, negb_true_iff.
  split; intros [Hin Hne]; split; auto.
  - intros E. rewrite E, String.eqb_refl in Hne. discriminate.
  - now apply String.eqb_neq.
Qed.

Lemma sessionCheck_revokeSession jti now db :
  sessionCheck jti now (revokeSession jti db) = [].
Proof.
  unfold sessionCheck. apply filter_nil_iff. intros s Hin.
  apply sessions_revokeSession in Hin. destruct Hin as [_ Hne].
  apply String.eqb_neq in Hne. now rewrite Hne.
Qed.

Lemma select_user_revokeSession id jti db :
  select_user_by_id id (revokeSession jti db) = select_user_by_id id db.
Proof. reflexivity. Qed.

(** C1.  Once [revokeSession] has run on a token's [jti], [authenticate]
    answers that token with 401 [SESSION_EXPIRED], although the token still
    verifies (signature and embedded expiry are valid at that instant). *)
Theorem revoked_token_is_rejected :
  forall (token : string) (decoded : claims) (now : Z) (db : database),
    verifyToken token now = Some decoded ->
    authenticate (bearer token) now (revokeSession (c_jti decoded) db)
      = Rejected 401 "SESSION_EXPIRED".
Proof.
  intros token decoded now db V.
  rewrite authenticate_bearer, V, sessionCheck_revokeSession. reflexivity.
Qed.

(** Logging out through the route has the same effect. *)
Lemma logout_then_rejected token user decoded now now' db :
  authenticate (bearer token) now db = Next user decoded ->
  verifyToken token now' = Some decoded ->
  fst (post_auth_logout (bearer token) now db)
    = RespMessage 200 "Logged out successfully" /\
  authenticate (bearer token) now' (snd (post_auth_logout (bearer token) now db))
    = Rejected 401 "SESSION_EXPIRED".
Proof.
  intros A V. unfold post_auth_logout, protected, logout_handler.
  rewrite A. cbn [fst snd]. split; [reflexivity|].
  now rewrite authenticate_bearer, V, sessionCheck_revokeSession.
Qed.

End MiddlewareFacts.

(** ** Issuance *)

(** A token is still inside its own validity window only if the session
    stored with it has not expired either. *)
Lemma token_window_inside_session_window (now now' : Z) :
  now' / 1000 < now / 1000 + 7 * 86400 ->
  now' < now + 7 * 86400000.
Proof.
  intros Hlt.
  pose proof (Z.mul_succ_div_gt now' 1000 ltac:(lia)).
  pose proof (Z.mul_div_le now 1000 ltac:(lia)).
  lia.
Qed.

Lemma insert_session_inv userId jti expiresAt now db db' :
  insert_session userId jti expiresAt now db = Some db' ->
  existsb (fun s => String.eqb (s_token_jti s) jti) (sessions db) = false /\
  existsb (fun u => u_id u =? userId) (users db) = true /\
  now < expiresAt /\
  users db' = users db /\ items db' = items db /\ uploads db' = uploads db /\
  sessions db' = (sessions db ++
    [ {| s_id := sessions_id_seq db; s_user_id := userId;
         s_token_jti := jti; s_expires_at := expiresAt;
         s_created_at := now |} ])%list.
Proof.
  unfold insert_session. intros E.
  destruct (existsb _ (sessions db)); [discriminate|].
  destruct (existsb _ (users db)); [|discriminate].
  destruct (now <? expiresAt) eqn:T; [|discriminate].
  apply Z.ltb_lt in T. simpl in E. injection E as <-. simpl. tauto.
Qed.

Section IssuanceFacts.
Context `{JwtContract} `{Env}.

Lemma issue_inv userId email now db token db' :
  issue userId email now db = Some (token, db') ->
  token = generateToken userId email now /\
  createSession userId (jti_of userId now) 7 now db = Some db'.
Proof.
  unfold issue, generateToken. rewrite jwt_payload_sign. simpl.
  destruct (createSession _ _ _ _ _); [|discriminate].
  intros E. injection E as <- <-. auto.
Qed.

Lemma verifyToken_generateToken userId email now now' :
  verifyToken (generateToken userId email now) now' =
    if now' / 1000 <? now / 1000 + JWT_EXPIRES_IN
    then Some (signed_claims (mkPayload userId email (jti_of userId now))
                             JWT_EXPIRES_IN now)
    else None.
Proof.
  unfold verifyToken, generateToken. apply jwt_verify_sign.
Qed.

(** The state after a successful issuance validates the token for as long
    as the token's own expiry has not passed. *)
Lemma authenticate_after_issue userId email now now' db token db' :
  issue userId email now db = Some (token, db') ->
  now' / 1000 < now / 1000 + JWT_EXPIRES_IN ->
  exists row rest,
    select_user_by_id userId db = row :: rest /\
    authenticate (bearer token) now' db' =
      Next (public_columns row)
           (signed_claims (mkPayload userId email (jti_of userId now))
                          JWT_EXPIRES_IN now).
Proof.
  intros I W. apply issue_inv in I. destruct I as [-> C].
  unfold createSession in C. apply insert_session_inv in C.
  destruct C as (_ & U & _ & Us & _ & _ & Ss).
  apply existsb_filter_cons in U. destruct U as (row & rest & U).
  exists row, rest. split; [exact U|].
  rewrite authenticate_bearer, verifyToken_generateToken.
  apply Z.ltb_lt in W as W'. rewrite W'. cbn [signed_claims c_jti c_id p_jti p_id].
  unfold sessionCheck. rewrite Ss, filter_app. cbn [filter s_token_jti s_expires_at].
  rewrite String.eqb_refl.
  apply token_window_inside_session_window in W. apply Z.ltb_lt in W.
  rewrite W. cbn [andb].
  unfold select_user_by_id. rewrite Us, U.
  destruct (filter _ (sessions db)); reflexivity.
Qed.

(** C2.  After a successful issuance ([generateToken], then [createSession],
    as in signup, login and refresh), [authenticate] accepts the returned
    token at every instant [now'] before the token's embedded expiry (the
    instant of issuance is one), and the [req.user] it attaches has the id
    the token was issued for. *)
Theorem issue_then_validate :
  forall (userId : Z) (email : string) (now now' : Z) (db : database)
         (token : string) (db' : database),
    issue userId email now db = Some (token, db') ->
    now' / 1000 < now / 1000 + JWT_EXPIRES_IN ->
    exists user decoded,
      authenticate (bearer token) now' db' = Next user decoded /\
      r_id user = userId /\
      c_id decoded = userId /\
      c_jti decoded = jti_of userId now.
Proof.
  intros userId email now now' db token db' I W.
  destruct (authenticate_after_issue _ _ _ _ _ _ _ I W) as (row & rest & U & A).
  apply filter_hd_sat in U. destruct U as [Hid _]. apply Z.eqb_eq in Hid.
  eexists _, _. split; [exact A|]. simpl. auto.
Qed.

End IssuanceFacts.

(** ** The reference packages meet the contract *)

Module ReferenceFacts.
Import Reference.

Lemma read_len_write_len (s r : string) :
  read_len (write_len s ++ r) = Some (String.length s, r).
Proof.
  induction s as [|c s IH]; simpl; [reflexivity | now rewrite IH].
Qed.

Lemma take_append (s r : string) :
  take (String.length s) (s ++ r) = Some (s, r).
Proof.
  induction s as [|c s IH]; simpl; [reflexivity | now rewrite IH].
Qed.

Lemma append_assoc (a b c : string) : (a ++ b) ++ c = a ++ (b ++ c).
Proof.
  induction a as [|x a IH]; simpl; [reflexivity | now rewrite IH].
Qed.

Lemma read_field_write_field (s r : string) :
  read_field (write_field s ++ r) = Some (s, r).
Proof.
  unfold read_field, write_field.
  rewrite append_assoc, read_len_write_len. apply take_append.
Qed.

Lemma read_pos_write_pos (p : positive) : read_pos (write_pos p) = Some p.
Proof.
  induction p as [p IH|p IH|]; simpl; [now rewrite IH .. | reflexivity].
Qed.

Lemma read_Z_write_Z (z : Z) : read_Z (write_Z z) = Some z.
Proof.
  destruct z as [|p|p]; simpl; [reflexivity | now rewrite read_pos_write_pos ..].
Qed.

Lemma decode_encode (secret : string) (c : claims) :
  decode (encode secret c) = Some (secret, c).
Proof.
  unfold decode, encode.
  rewrite !read_field_write_field.
  replace (write_field (write_Z (c_exp c)))
    with (write_field (write_Z (c_exp c)) ++ "").
  - rewrite read_field_write_field, !read_Z_write_Z. now destruct c.
  - generalize (write_field (write_Z (c_exp c))).
    induction s as [|x s IH]; simpl; [reflexivity | now rewrite IH].
Qed.

#[export] Instance contract : JwtContract.
Proof.
  split.
  - intros token secret t t' c. simpl. unfold verify.
    destruct (decode token) as [[key d]|]; [|discriminate].
    destruct (String.eqb key secret); simpl; [|discriminate].
    destruct (t / 1000 <? c_exp d); [|discriminate].
    intros E. injection E as <-. reflexivity.
  - intros p secret expiresIn t t'. simpl. unfold verify, sign.
    rewrite decode_encode, String.eqb_refl. reflexivity.
  - intros p secret expiresIn t. simpl. unfold unverified, sign.
    now rewrite decode_encode.
Qed.

End ReferenceFacts.

(** ** The sweep *)

Section SweepFacts.

Lemma cleanup_only_touches_sessions now db :
  let db' := fst (cleanupExpiredSessions now db) in
  users db' = users db /\ items db' = items db /\ uploads db' = uploads db.
Proof. simpl. auto. Qed.

(** [result.rowCount] counts the rows that went away. *)
Lemma cleanup_rowCount now db :
  snd (cleanupExpiredSessions now db) =
    Z.of_nat (List.length (sessions db))
    - Z.of_nat (List.length (sessions (fst (cleanupExpiredSessions now db)))).
Proof.
  unfold cleanupExpiredSessions. cbn [fst snd set_sessions sessions].
  induction (sessions db) as [|s l IH]; cbn [filter List.length]; [reflexivity|].
  destruct (s_expires_at s <? now); cbn [negb List.length]; lia.
Qed.

(** C5 (as the code has it).  The sweep removes exactly the session rows
    whose [expires_at] lies strictly before [now]: a row survives if and
    only if [now <= expires_at].  So no row with [expires_at > now] is ever
    removed, every row with [expires_at < now] is, and a row with
    [expires_at = now] stays. *)
Theorem cleanup_removes_strictly_past_sessions :
  forall (now : Z) (db : database) (s : session_row),
    In s (sessions (fst (cleanupExpiredSessions now db))) <->
    In s (sessions db) /\ now <= s_expires_at s.
Proof.
  intros now db s. simpl. rewrite filter_In, negb_true_iff, Z.ltb_ge.
  reflexivity.
Qed.

(** A row the sweep removes fails the [expires_at > NOW()] test of
    [authenticate]'s session lookup as well. *)
Lemma cleanup_removes_only_dead_sessions now db s :
  In s (sessions db) ->
  ~ In s (sessions (fst (cleanupExpiredSessions now db))) ->
  (now <? s_expires_at s) = false.
Proof.
  intros Hin Hout. apply Z.ltb_ge.
  destruct (Z_lt_le_dec (s_expires_at s) now) as [L|L]; [lia|].
  exfalso. apply Hout. simpl. apply filter_In. split; [exact Hin|].
  apply negb_true_iff, Z.ltb_ge. exact L.
Qed.

End SweepFacts.

(** C5, the boundary.  A session whose [expires_at] equals the instant of
    the sweep is not removed, although [expires_at <= now] holds for it. *)
Lemma cleanup_keeps_session_expiring_now :
  s_expires_at Sample.boundary_session <= 5000 /\
  In Sample.boundary_session (sessions Sample.db_sweep) /\
  In Sample.boundary_session
     (sessions (fst (cleanupExpiredSessions 5000 Sample.db_sweep))).
Proof.
  split; [vm_compute; discriminate|].
  split; simpl; auto.
Qed.

(** ** Items: ownership *)

Lemma In_insert_desc x y l : In y (insert_desc x l) <-> y = x \/ In y l.
Proof.
  induction l as [|a l IH]; simpl.
  - intuition congruence.
  - destruct (i_created_at a <? i_created_at x); simpl; rewrite ?IH;
      intuition congruence.
Qed.

Lemma In_order_by_created_at_desc y l :
  In y (order_by_created_at_desc l) <-> In y l.
Proof.
  induction l as [|a l IH]; simpl; [reflexivity|].
  rewrite In_insert_desc, IH. intuition congruence.
Qed.

Lemma length_insert_desc x l :
  List.length (insert_desc x l) = S (List.length l).
Proof.
  induction l as [|a l IH]; simpl; [reflexivity|].
  destruct (i_created_at a <? i_created_at x); simpl; congruence.
Qed.

Lemma length_order_by_created_at_desc l :
  List.length (order_by_created_at_desc l) = List.length l.
Proof.
  induction l as [|a l IH]; simpl; [reflexivity|].
  now rewrite length_insert_desc, IH.
Qed.

Section ItemFacts.
Context `{JwtLib} `{Env}.

(** Whoever [authenticate] lets through, [optionalAuth] identifies alike. *)
Lemma authenticate_Next_optionalAuth hdr now db user token :
  authenticate hdr now db = Next user token ->
  optionalAuth hdr now db = Some (user, token).
Proof.
  unfold authenticate, optionalAuth. intros E.
  destruct hdr as [h|]; [|discriminate].
  destruct (truthy_string (Some h)); [|discriminate].
  destruct (startsWith h "Bearer "); [|discriminate]. cbn [negb orb andb] in *.
  destruct (verifyToken _ _); [|discriminate].
  destruct (sessionCheck _ _ _); [discriminate|].
  destruct (select_user_by_id _ _); [discriminate|].
  now injection E as <- <-.
Qed.

(** C7.  Let the item [id] be owned by user [B] (ids come from a [SERIAL]
    column, so [0 < B]) and let the request be authenticated as another user
    [A].  Then [PUT] and [DELETE] answer 403 and leave the whole store as it
    was; [GET /api/items/:id] answers 403 and the listing made for [A] does
    not contain the item; and the owner still reads the unmodified row. *)
Theorem other_users_item_is_out_of_reach :
  forall (id A B : Z) (it : item_row) (rest : list item_row)
         (hdr : option string) (ua : req_user) (tk : claims)
         (body : item_update) (now : Z) (db : database),
    select_item_by_id id db = it :: rest ->
    i_user_id it = Some B ->
    0 < B ->
    A <> B ->
    authenticate hdr now db = Next ua tk ->
    r_id ua = A ->
    put_item id body hdr now db = (RespError 403 "FORBIDDEN", db) /\
    delete_item id hdr now db = (RespError 403 "FORBIDDEN", db) /\
    get_item id hdr now db = RespError 403 "FORBIDDEN" /\
    (exists rows, get_items hdr now db = RespItems 200 rows /\ ~ In it rows) /\
    (forall ub, r_id ub = B ->
       get_item_handler id (Some ub) db = RespItem 200 (Some it)).
Proof.
  intros id A B it rest hdr ua tk body now db S O P N Au <-.
  assert (F : strict_neq (i_user_id it) (r_id ua) = true).
  { rewrite O. simpl. apply negb_true_iff, Z.eqb_neq. congruence. }
  assert (T : truthy_int (i_user_id it) = true).
  { rewrite O. simpl. apply negb_true_iff, Z.eqb_neq. lia. }
  repeat split.
  - unfold put_item, protected, put_item_handler. now rewrite Au, S, F.
  - unfold delete_item, protected, delete_item_handler. now rewrite Au, S, F.
  - unfold get_item, get_item_handler.
    rewrite (authenticate_Next_optionalAuth _ _ _ _ _ Au), S. simpl.
    now rewrite T, F.
  - unfold get_items. rewrite (authenticate_Next_optionalAuth _ _ _ _ _ Au).
    eexists. split; [reflexivity|].
    rewrite In_order_by_created_at_desc, filter_In, O. simpl.
    intros [_ E]. apply Z.eqb_eq in E. congruence.
  - intros ub Hb. unfold get_item_handler. rewrite S, O.
    cbn [truthy_int strict_neq]. rewrite Hb, Z.eqb_refl.
    cbn [negb]. now rewrite andb_false_r.
Qed.

(** Without an identity, [GET /api/items/:id] hands out a row only when
    its [user_id] is falsy. *)
Lemma anonymous_get_item_only_unowned id db row :
  get_item_handler id None db = RespItem 200 (Some row) ->
  truthy_int (i_user_id row) = false /\ In row (items db).
Proof.
  unfold get_item_handler.
  destruct (select_item_by_id id db) as [|it rest] eqn:S; [discriminate|].
  rewrite andb_true_r.
  destruct (truthy_int (i_user_id it)) eqn:T; [discriminate|].
  intros E. injection E as <-. split; [exact T|].
  apply filter_hd_sat in S. tauto.
Qed.

(** The anonymous listing has at most ten entries. *)
Lemma anonymous_get_items_bounded hdr now db :
  optionalAuth hdr now db = None ->
  exists rows, get_items hdr now db = RespSummaries 200 rows /\
               (List.length rows <= 10)%nat.
Proof.
  intros O. unfold get_items. rewrite O. eexists. split; [reflexivity|].
  rewrite length_map. apply firstn_le_length.
Qed.

(** The anonymous listing is taken from all items, whoever owns them: with
    at most ten rows in the table every one of them is listed. *)
Lemma anonymous_get_items_lists_owned_rows hdr now db it :
  optionalAuth hdr now db = None ->
  (List.length (items db) <= 10)%nat ->
  In it (items db) ->
  exists rows, get_items hdr now db = RespSummaries 200 rows /\
               In (summary_columns it) rows.
Proof.
  intros O L Hin. unfold get_items. rewrite O. eexists. split; [reflexivity|].
  apply in_map. rewrite firstn_all2.
  - now apply In_order_by_created_at_desc.
  - now rewrite length_order_by_created_at_desc.
Qed.

End ItemFacts.

(** ** Users: password change and account deletion *)

Lemma truthy_string_Some (s : string) :
  s <> "" -> truthy_string (Some s) = true.
Proof.
  intros N. simpl. apply negb_true_iff. now apply String.eqb_neq.
Qed.

Section UserFacts.
Context `{JwtLib} `{Env} `{BcryptLib}.

(** The handler changes the store in one case only. *)
Lemma password_handler_cases body user tk now db :
  let out := put_users_me_password_handler body user tk now db in
  snd out = db \/
  exists cur new row rest,
    current_password body = Some cur /\ new_password body = Some new /\
    8 <= js_length new /\
    select_user_by_id (r_id user) db = row :: rest /\
    bcrypt_compare cur (u_password_hash row) = true /\
    out = (RespMessage 200 "Password updated successfully",
           set_users db (map (set_password (r_id user) (bcrypt_hash new 10) now)
                             (users db))).
Proof.
  unfold put_users_me_password_handler.
  destruct (negb (truthy_string (current_password body)) ||
            negb (truthy_string (new_password body))); [now left|].
  destruct (current_password body) as [cur|]; [|now left].
  destruct (new_password body) as [new|]; [|now left].
  destruct (js_length new <? 8) eqn:L; [now left|].
  destruct (select_user_by_id (r_id user) db) as [|row rest]; [now left|].
  destruct (bcrypt_compare cur (u_password_hash row)) eqn:C; [|now left].
  right. exists cur, new, row, rest. apply Z.ltb_ge in L. simpl. auto 10.
Qed.

(** C9 (as the code has it).  For a request that [authenticate] let
    through as [user], whose stored row is [row]:
    - if both fields are present and non-empty and the new password has at
      least 8 characters, a current password that does not verify is
      answered with 401 [INVALID_PASSWORD];
    - whenever the current password does not verify, the store is left as
      it was, whatever the answer;
    - the store changes only if the current password verifies and the new
      password has at least 8 characters, and then the user's hash is the
      hash of the new password. *)
Theorem password_change_needs_current_password :
  forall (body : password_body) (hdr : option string) (user : req_user)
         (tk : claims) (now : Z) (db : database)
         (row : user_row) (rest : list user_row),
    authenticate hdr now db = Next user tk ->
    select_user_by_id (r_id user) db = row :: rest ->
    let out := put_users_me_password body hdr now db in
    (forall cur new,
        current_password body = Some cur -> new_password body = Some new ->
        cur <> "" -> 8 <= js_length new ->
        bcrypt_compare cur (u_password_hash row) = false ->
        out = (RespError 401 "INVALID_PASSWORD", db)) /\
    ((forall cur, current_password body = Some cur ->
                  bcrypt_compare cur (u_password_hash row) = false) ->
     snd out = db) /\
    (snd out <> db ->
     exists cur new,
       current_password body = Some cur /\ new_password body = Some new /\
       bcrypt_compare cur (u_password_hash row) = true /\
       8 <= js_length new /\
       fst out = RespMessage 200 "Password updated successfully" /\
       users (snd out) =
         map (set_password (r_id user) (bcrypt_hash new 10) now) (users db)).
Proof.
  intros body hdr user tk now db row rest A S.
  cbv zeta. unfold put_users_me_password.
  rewrite (protected_Next _ _ _ _ _ _ A).
  pose proof (password_handler_cases body user tk now db) as Cases.
  cbv zeta in Cases.
  set (out := put_users_me_password_handler body user tk now db) in *.
  split; [|split].
  - intros cur new Hc Hn Ne L C. subst out.
    unfold put_users_me_password_handler. rewrite Hc, Hn, S, C.
    rewrite truthy_string_Some by exact Ne.
    assert (Nn : new <> "").
    { intros ->. unfold js_length in L. simpl in L. lia. }
    rewrite truthy_string_Some by exact Nn.
    apply Z.ltb_ge in L. now rewrite L.
  - intros Mis. destruct Cases as [U|(cur & new & row' & rest' & Hc & _ & _ & S' & C & _)];
      [exact U|].
    rewrite S in S'. injection S' as <- <-.
    rewrite (Mis cur Hc) in C. discriminate.
  - intros Ch. destruct Cases as [U|(cur & new & row' & rest' & Hc & Hn & L & S' & C & E)];
      [contradiction|].
    rewrite S in S'. injection S' as <- <-.
    exists cur, new. rewrite E. simpl. auto 10.
Qed.

Lemma delete_handler_cases password user tk now db :
  let out := delete_users_me_handler password user tk now db in
  snd out = db \/
  exists pw row rest,
    password = Some pw /\ pw <> "" /\
    select_user_by_id (r_id user) db = row :: rest /\
    bcrypt_compare pw (u_password_hash row) = true /\
    out = (RespMessage 200 "Account deleted successfully",
           delete_user_cascade (r_id user) db).
Proof.
  unfold delete_users_me_handler.
  destruct password as [pw|]; [|now left].
  destruct (truthy_string (Some pw)) eqn:T; [|now left]. cbn [negb].
  destruct (select_user_by_id (r_id user) db) as [|row rest]; [now left|].
  destruct (bcrypt_compare pw (u_password_hash row)) eqn:C; [|now left].
  right. exists pw, row, rest. simpl in T. apply negb_true_iff in T.
  apply String.eqb_neq in T. simpl. auto 10.
Qed.

Lemma select_user_after_cascade id db :
  select_user_by_id id (delete_user_cascade id db) = [].
Proof.
  unfold select_user_by_id. simpl. apply filter_nil_iff.
  intros u Hin. apply filter_In in Hin. destruct Hin as [_ N].
  now apply negb_true_iff in N.
Qed.

(** C10.  [DELETE /api/users/me] first needs a request [authenticate] lets
    through (otherwise the middleware's 401 is the answer and nothing
    changes).  For such a request, made as [user] with stored row [row]:
    a missing (absent or empty) password is answered with 400 and a
    password that does not verify with 401, the store being left as it was
    in both cases; a password that verifies removes the user row together
    with the rows that cascade from it; and the user row is gone afterwards
    only if the supplied password verified. *)
Theorem account_deletion_needs_password :
  forall (password : option string) (hdr : option string) (user : req_user)
         (tk : claims) (now : Z) (db : database)
         (row : user_row) (rest : list user_row),
    authenticate hdr now db = Next user tk ->
    select_user_by_id (r_id user) db = row :: rest ->
    let out := delete_users_me password hdr now db in
    (truthy_string password = false ->
     out = (RespError 400 "MISSING_PASSWORD", db)) /\
    (forall pw, password = Some pw -> pw <> "" ->
       bcrypt_compare pw (u_password_hash row) = false ->
       out = (RespError 401 "INVALID_PASSWORD", db)) /\
    (forall pw, password = Some pw -> pw <> "" ->
       bcrypt_compare pw (u_password_hash row) = true ->
       out = (RespMessage 200 "Account deleted successfully",
              delete_user_cascade (r_id user) db) /\
       select_user_by_id (r_id user) (snd out) = []) /\
    (snd out <> db ->
     exists pw, password = Some pw /\
                bcrypt_compare pw (u_password_hash row) = true).
Proof.
  intros password hdr user tk now db row rest A S.
  cbv zeta. unfold delete_users_me.
  rewrite (protected_Next _ _ _ _ _ _ A).
  set (out := delete_users_me_handler password user tk now db).
  split; [|split; [|split]].
  - intros T. subst out. unfold delete_users_me_handler. now rewrite T.
  - intros pw -> Ne C. subst out. unfold delete_users_me_handler.
    rewrite truthy_string_Some by exact Ne. cbn [negb]. now rewrite S, C.
  - intros pw -> Ne C. subst out. unfold delete_users_me_handler.
    rewrite truthy_string_Some by exact Ne. cbn [negb]. rewrite S, C.
    split; [reflexivity|]. apply select_user_after_cascade.
  - intros Ch.
    destruct (delete_handler_cases password user tk now db)
      as [U|(pw & row' & rest' & -> & _ & S' & C & _)]; [contradiction|].
    rewrite S in S'. injection S' as <- <-. eauto.
Qed.

(** Without a validated session neither route touches the store. *)
Lemma user_routes_need_session body password hdr now db st code :
  authenticate hdr now db = Rejected st code ->
  put_users_me_password body hdr now db = (RespError st code, db) /\
  delete_users_me password hdr now db = (RespError st code, db).
Proof.
  intros A. unfold put_users_me_password, delete_users_me, protected.
  now rewrite A.
Qed.

End UserFacts.

(** ** Token identifiers *)

Lemma js_number_to_string_nonneg (n : Z) :
  0 <= n ->
  exists d, Z.to_int n = Decimal.Pos d /\
            js_number_to_string n = NilEmpty.string_of_uint d.
Proof.
  intros Hn. unfold js_number_to_string.
  destruct n as [|p|p]; [| |lia].
  - exists (Decimal.D0 Decimal.Nil). auto.
  - exists (Pos.to_uint p). split; [reflexivity|]. simpl.
    pose proof (DecimalPos.Unsigned.to_uint_nonnil p).
    destruct (Pos.to_uint p); [contradiction | reflexivity ..].
Qed.

(** Digits never contain the separator, so the first ["-"] splits a
    [jti] in one way only. *)
Lemma string_of_uint_dash_split (d d' : Decimal.uint) (r r' : string) :
  NilEmpty.string_of_uint d ++ String "-" r =
  NilEmpty.string_of_uint d' ++ String "-" r' ->
  d = d' /\ r = r'.
Proof.
  revert d'. induction d as [|d IH|d IH|d IH|d IH|d IH|d IH|d IH|d IH|d IH|d IH];
    intros [|e|e|e|e|e|e|e|e|e|e]; simpl; intros E; try discriminate E;
    injection E as E; try (apply IH in E; destruct E as [-> ->]); auto.
Qed.

Lemma string_of_uint_inj (d d' : Decimal.uint) :
  NilEmpty.string_of_uint d = NilEmpty.string_of_uint d' -> d = d'.
Proof.
  intros E. apply (f_equal NilEmpty.uint_of_string) in E.
  rewrite !NilEmpty.usu in E. congruence.
Qed.

(** Two identifiers built by [generateToken] coincide only for the same
    user in the same millisecond. *)
Lemma jti_of_inj (u t u' t' : Z) :
  0 <= u -> 0 <= t -> 0 <= u' -> 0 <= t' ->
  jti_of u t = jti_of u' t' -> u = u' /\ t = t'.
Proof.
  intros Hu Ht Hu' Ht'. unfold jti_of.
  destruct (js_number_to_string_nonneg u Hu) as (du & Iu & ->).
  destruct (js_number_to_string_nonneg t Ht) as (dt & It & ->).
  destruct (js_number_to_string_nonneg u' Hu') as (du' & Iu' & ->).
  destruct (js_number_to_string_nonneg t' Ht') as (dt' & It' & ->).
  simpl. intros E. apply string_of_uint_dash_split in E.
  destruct E as [-> E]. apply string_of_uint_inj in E. subst dt'.
  split; apply DecimalZ.to_int_inj; congruence.
Qed.

(** ** Issuance and refresh against the [UNIQUE] token identifier *)

Section RefreshFacts.
Context `{JwtContract} `{Env}.

(** An issuance that succeeds found no row with its identifier: the
    table's [UNIQUE] constraint, not the generator, is what rules a
    duplicate out. *)
Lemma issue_jti_unused userId email now db token db' :
  issue userId email now db = Some (token, db') ->
  forall s, In s (sessions db) -> s_token_jti s <> jti_of userId now.
Proof.
  intros I s Hin E. apply issue_inv in I. destruct I as [_ C].
  apply insert_session_inv in C. destruct C as (U & _).
  assert (X : existsb (fun s => String.eqb (s_token_jti s) (jti_of userId now))
                      (sessions db) = true).
  { apply existsb_exists. exists s. split; [exact Hin|]. now apply String.eqb_eq. }
  congruence.
Qed.

(** A second issuance for the same user in the same millisecond generates
    the identifier of the first and fails on the insert. *)
Lemma issue_again_same_millisecond userId email email' now db token db' :
  issue userId email now db = Some (token, db') ->
  issue userId email' now db' = None.
Proof.
  intros I. apply issue_inv in I. destruct I as [_ C].
  apply insert_session_inv in C. destruct C as (_ & _ & _ & _ & _ & _ & Ss).
  unfold issue, generateToken. rewrite jwt_payload_sign.
  cbn [signed_claims c_jti p_jti]. unfold createSession, insert_session.
  rewrite Ss, existsb_app. cbn [existsb s_token_jti].
  now rewrite String.eqb_refl, orb_true_r.
Qed.

(** What a refresh that answers 200 did to the store: the rows carrying
    the old identifier are gone and one row was appended for the new
    token. *)
Lemma refresh_inv token user decoded now db newToken db' :
  authenticate (bearer token) now db = Next user decoded ->
  post_auth_refresh (bearer token) now db = (RespToken 200 newToken, db') ->
  issue (r_id user) (r_email user) now (revokeSession (c_jti decoded) db)
    = Some (newToken, db') /\
  sessions db' =
    (filter (fun s => negb (String.eqb (s_token_jti s) (c_jti decoded)))
            (sessions db)
     ++ [ {| s_id := sessions_id_seq db; s_user_id := r_id user;
             s_token_jti := jti_of (r_id user) now;
             s_expires_at := now + 7 * 86400000;
             s_created_at := now |} ])%list.
Proof.
  intros A R. unfold post_auth_refresh in R.
  rewrite (protected_Next _ _ _ _ _ _ A) in R. unfold refresh_handler in R.
  destruct (issue _ _ _ _) as [[t d]|] eqn:I; [|discriminate].
  injection R as <- <-. split; [reflexivity|].
  apply issue_inv in I. destruct I as [_ C].
  apply insert_session_inv in C. tauto.
Qed.

(** After a refresh that answers 200: the new token is accepted until its
    own expiry, for the same user; and, provided the identifier generated
    for the new token differs from the old token's, the old token is
    refused at every instant. *)
Lemma refresh_supersedes_old_token token user decoded now db newToken db' :
  authenticate (bearer token) now db = Next user decoded ->
  post_auth_refresh (bearer token) now db = (RespToken 200 newToken, db') ->
  (forall now', now' / 1000 < now / 1000 + JWT_EXPIRES_IN ->
     exists u d, authenticate (bearer newToken) now' db' = Next u d /\
                 r_id u = r_id user) /\
  (c_jti decoded <> jti_of (r_id user) now ->
   forall t, authenticate (bearer token) t db' = Rejected 401 "SESSION_EXPIRED" \/
             authenticate (bearer token) t db' = Rejected 401 "INVALID_TOKEN").
Proof.
  intros A R. destruct (refresh_inv _ _ _ _ _ _ _ A R) as [I Ss]. split.
  - intros now' W.
    destruct (authenticate_after_issue _ _ _ _ _ _ _ I W) as (row & rest & U & Au).
    apply filter_hd_sat in U. destruct U as [Hid _]. apply Z.eqb_eq in Hid.
    eexists _, _. split; [exact Au | exact Hid].
  - intros D t. rewrite authenticate_bearer in A.
    destruct (verifyToken token now) as [d|] eqn:V; [|discriminate].
    assert (d = decoded) as ->.
    { destruct (sessionCheck _ _ _); [discriminate|].
      destruct (select_user_by_id _ _); [discriminate|]. congruence. }
    rewrite authenticate_bearer. unfold verifyToken in *.
    rewrite (jwt_verify_clock _ _ _ t _ V).
    destruct (t / 1000 <? c_exp decoded); [left | now right].
    replace (sessionCheck (c_jti decoded) t db') with (@nil session_row);
      [reflexivity|].
    symmetry. unfold sessionCheck. apply filter_nil_iff. intros s Hin.
    rewrite Ss in Hin. apply in_app_or in Hin. destruct Hin as [Hin|[<-|[]]].
    + apply filter_In in Hin. destruct Hin as [_ N].
      apply negb_true_iff in N. now rewrite N.
    + cbn [s_token_jti]. apply not_eq_sym, String.eqb_neq in D. now rewrite D.
Qed.

(** Conversely, when the identifier generated for the new token is the
    old token's, the refresh puts a live row back under it and the old
    token goes on being accepted. *)
Lemma refresh_collision_keeps_old_token token user decoded now db newToken db' :
  authenticate (bearer token) now db = Next user decoded ->
  post_auth_refresh (bearer token) now db = (RespToken 200 newToken, db') ->
  c_jti decoded = jti_of (r_id user) now ->
  authenticate (bearer token) now db' = Next user decoded.
Proof.
  intros A R J. destruct (refresh_inv _ _ _ _ _ _ _ A R) as [I Ss].
  apply issue_inv in I. destruct I as [_ C].
  apply insert_session_inv in C. destruct C as (_ & _ & _ & Us & _).
  rewrite authenticate_bearer in A |- *.
  destruct (verifyToken token now) as [d|]; [|discriminate].
  destruct (sessionCheck (c_jti d) now db); [discriminate|].
  unfold select_user_by_id in *. rewrite Us. cbn [revokeSession set_sessions users].
  destruct (filter _ (users db)) as [|row rest]; [discriminate|].
  injection A as <- <-.
  unfold sessionCheck. rewrite Ss, filter_app.
  cbn [filter s_token_jti s_expires_at]. rewrite <- J, String.eqb_refl.
  assert (T : (now <? now + 7 * 86400000) = true) by (apply Z.ltb_lt; lia).
  rewrite T. cbn [andb].
  destruct (filter _ (filter _ (sessions db))); reflexivity.
Qed.

End RefreshFacts.

(** ** Login *)

Section LoginFacts.
Context `{JwtContract} `{Env} `{BcryptLib}.



End LoginFacts.

(** ** The optional middleware against the mandatory one *)

Section OptionalFacts.
Context `{JwtLib} `{Env}.

(** The optional middleware never answers the request itself (its result
    type has no such case), and it attaches whatever [authenticate] would. *)
Lemma optionalAuth_spec_le hdr now db r :
  optionalAuth_spec hdr now db = Some r -> optionalAuth hdr now db = Some r.
Proof.
  unfold optionalAuth_spec.
  destruct (authenticate hdr now db) as [u t|st c] eqn:A; [|discriminate].
  intros E. injection E as <-. now apply authenticate_Next_optionalAuth.
Qed.

(** It attaches more: a token that verifies, for a user who exists, is
    given its identity whether or not a session row backs it. *)
Lemma optionalAuth_without_session token decoded now db row rest :
  verifyToken token now = Some decoded ->
  sessionCheck (c_jti decoded) now db = [] ->
  select_user_by_id (c_id decoded) db = row :: rest ->
  authenticate (bearer token) now db = Rejected 401 "SESSION_EXPIRED" /\
  optionalAuth_spec (bearer token) now db = None /\
  optionalAuth (bearer token) now db = Some (public_columns row, decoded).
Proof.
  intros V S U. unfold optionalAuth_spec.
  rewrite authenticate_bearer, optionalAuth_bearer, V, S, U. auto.
Qed.

End OptionalFacts.

(* ================================================================== *)
(** * The handlers run on the sample store *)

Module Scenarios.
Import Reference ReferenceFacts Sample.

(** Run the handlers and compare. *)
Ltac run := vm_compute; repeat split; try discriminate.

(** Alice logs in twice, a millisecond apart, and logs out with the first
    token: one session is left, the first token is refused and the second
    still accepted. *)
Lemma two_sessions_then_logout :
  let r1 := post_auth_login alice_login 1000 db0 in
  let r2 := post_auth_login alice_login 1001 (snd r1) in
  let r3 := post_auth_logout (bearer alice_token) 1002 (snd r2) in
  fst r1 = RespSession 200 alice_token (public_columns alice) /\
  fst r2 = RespSession 200 (generateToken 1 "a@b.com" 1001) (public_columns alice) /\
  List.length (sessions (snd r1)) = 1%nat /\
  List.length (sessions (snd r2)) = 2%nat /\
  List.length (sessions (snd r3)) = 1%nat /\
  authenticate (bearer alice_token) 1003 (snd r3)
    = Rejected 401 "SESSION_EXPIRED" /\
  option_map fst (optionalAuth_spec (bearer (generateToken 1 "a@b.com" 1001))
                                    1003 (snd r3))
    = Some (public_columns alice).
Proof. run. Qed.

(** C3.  Bob logs out at millisecond 3000.  From then on [authenticate]
    refuses his token with 401 [SESSION_EXPIRED], and the optional
    middleware as specified would attach nothing; [optionalAuth] still
    attaches bob, and [GET /api/items/1] hands his item out to the revoked
    token. *)
Theorem optionalAuth_accepts_revoked_token :
  let db' := snd (post_auth_logout (bearer bob_token) 3000 db2) in
  fst (post_auth_logout (bearer bob_token) 3000 db2)
    = RespMessage 200 "Logged out successfully" /\
  authenticate (bearer bob_token) 3000 db' = Rejected 401 "SESSION_EXPIRED" /\
  optionalAuth_spec (bearer bob_token) 3000 db' = None /\
  optionalAuth (bearer bob_token) 3000 db' = Some (public_columns bob, bob_claims) /\
  get_item 1 (bearer bob_token) 3000 db' = RespItem 200 (Some item_x) /\
  get_items (bearer bob_token) 3000 db' = RespItems 200 [item_x].
Proof. run. Qed.

(** C4.  Alice's token was generated at millisecond 1000 and the refresh
    reads the same millisecond off the clock.  The refresh answers 200, the
    identifier generated for the new token is the old one, and the old
    token is accepted by [authenticate] afterwards. *)
Theorem refresh_in_the_same_millisecond_keeps_old_token :
  authenticate (bearer alice_token) 1000 db1
    = Next (public_columns alice) alice_claims /\
  fst (post_auth_refresh (bearer alice_token) 1000 db1)
    = RespToken 200 alice_token /\
  authenticate (bearer alice_token) 1000
               (snd (post_auth_refresh (bearer alice_token) 1000 db1))
    = Next (public_columns alice) alice_claims.
Proof. run. Qed.

(** C6.  Nobody is logged in and the request carries no header.  The
    listing contains the summary of item 1, whose [user_id] is 2, while the
    single read of the same item answers 403. *)
Theorem anonymous_listing_discloses_owned_item :
  i_user_id item_x = Some 2 /\
  get_items None 0 db0
    = RespSummaries 200 [summary_columns item_x; summary_columns item_legacy] /\
  get_item 1 None 0 db0 = RespError 403 "FORBIDDEN" /\
  get_item 2 None 0 db0 = RespItem 200 (Some item_legacy).
Proof. run. Qed.

(** C8.  Two logins of alice read millisecond 1000 off the clock.  Both
    tokens carry the identifier ["1-1000"]; the first issuance stores a
    session under it that is live, and the second issuance fails on the
    [UNIQUE] constraint instead of producing an identifier of its own, so
    that the second [POST /api/auth/login] answers 500. *)
Theorem second_issuance_in_a_millisecond_collides :
  option_map c_jti (jwt_payload (generateToken 1 "a@b.com" 1000))
    = Some "1-1000" /\
  issue 1 "a@b.com" 1000 db0 = Some (alice_token, db1) /\
  sessionCheck "1-1000" 1000 db1 = [alice_session] /\
  issue 1 "a@b.com" 1000 db1 = None /\
  fst (post_auth_login alice_login 1000 db0)
    = RespSession 200 alice_token (public_columns alice) /\
  fst (post_auth_login alice_login 1000 (snd (post_auth_login alice_login 1000 db0)))
    = RespError 500 "LOGIN_ERROR".
Proof. run. Qed.

(** C9, the order of the checks.  Alice sends a current password that does
    not verify together with a new password of five characters: the answer
    is 400 [WEAK_PASSWORD], not 401. *)
Lemma wrong_current_with_short_new_password_is_400 :
  authenticate (bearer alice_token) 1000 db1
    = Next (public_columns alice) alice_claims /\
  bcrypt_compare "wrong" (u_password_hash alice) = false /\
  put_users_me_password
    {| current_password := Some "wrong"; new_password := Some "short" |}
    (bearer alice_token) 1000 db1
    = (RespError 400 "WEAK_PASSWORD", db1) /\
  fst (put_users_me_password
         {| current_password := Some "wrong"; new_password := Some "short" |}
         (bearer alice_token) 1000 db1)
    <> RespError 401 "INVALID_PASSWORD".
Proof. run. Qed.

End Scenarios.

(* ================================================================== *)
(** * The theorems at concrete requests *)

Module Witnesses.
Import Reference ReferenceFacts Sample.

(** Alice's token verifies at millisecond 1000; once its session is
    revoked the middleware refuses it. *)
Lemma revoked_token_is_rejected_witness :
  verifyToken alice_token 1000 = Some alice_claims /\
  authenticate (bearer alice_token) 1000
               (revokeSession (c_jti alice_claims) db1)
    = Rejected 401 "SESSION_EXPIRED".
Proof.
  assert (V : verifyToken alice_token 1000 = Some alice_claims)
    by (vm_compute; reflexivity).
  split; [exact V|].
  exact (revoked_token_is_rejected alice_token alice_claims 1000 db1 V).
Defined.

(** Alice logs in at millisecond 1000 and presents the token a second
    later. *)
Lemma issue_then_validate_witness :
  issue 1 "a@b.com" 1000 db0 = Some (alice_token, db1) /\
  2000 / 1000 < 1000 / 1000 + JWT_EXPIRES_IN /\
  exists user decoded,
    authenticate (bearer alice_token) 2000 db1 = Next user decoded /\
    r_id user = 1 /\ c_id decoded = 1 /\ c_jti decoded = jti_of 1 1000.
Proof.
  assert (I : issue 1 "a@b.com" 1000 db0 = Some (alice_token, db1))
    by (vm_compute; reflexivity).
  assert (W : 2000 / 1000 < 1000 / 1000 + JWT_EXPIRES_IN)
    by (vm_compute; reflexivity).
  split; [exact I|]. split; [exact W|].
  exact (issue_then_validate 1 "a@b.com" 1000 2000 db0 alice_token db1 I W).
Defined.

(** Alice, logged in, goes after bob's item 1. *)
Lemma other_users_item_is_out_of_reach_witness :
  put_item 1 (mkItemUpdate (Some "Y") None None) (bearer alice_token) 1000 db2
    = (RespError 403 "FORBIDDEN", db2) /\
  delete_item 1 (bearer alice_token) 1000 db2 = (RespError 403 "FORBIDDEN", db2) /\
  get_item 1 (bearer alice_token) 1000 db2 = RespError 403 "FORBIDDEN" /\
  (exists rows, get_items (bearer alice_token) 1000 db2 = RespItems 200 rows /\
                ~ In item_x rows) /\
  (forall ub, r_id ub = 2 ->
     get_item_handler 1 (Some ub) db2 = RespItem 200 (Some item_x)).
Proof.
  apply (other_users_item_is_out_of_reach 1 1 2 item_x []
           (bearer alice_token) (public_columns alice) alice_claims
           (mkItemUpdate (Some "Y") None None) 1000 db2).
  - vm_compute; reflexivity.
  - reflexivity.
  - lia.
  - lia.
  - vm_compute; reflexivity.
  - reflexivity.
Defined.

(** Alice asks for a password change with a current password that does not
    verify and a well-formed new one. *)
Lemma password_change_needs_current_password_witness :
  put_users_me_password
    {| current_password := Some "wrong"; new_password := Some "NewPass123" |}
    (bearer alice_token) 1000 db1
    = (RespError 401 "INVALID_PASSWORD", db1).
Proof.
  assert (A : authenticate (bearer alice_token) 1000 db1
              = Next (public_columns alice) alice_claims)
    by (vm_compute; reflexivity).
  assert (S : select_user_by_id (r_id (public_columns alice)) db1 = [alice])
    by (vm_compute; reflexivity).
  destruct (password_change_needs_current_password
              {| current_password := Some "wrong";
                 new_password := Some "NewPass123" |}
              (bearer alice_token) (public_columns alice) alice_claims
              1000 db1 alice [] A S) as [P _].
  apply (P "wrong" "NewPass123").
  - reflexivity.
  - reflexivity.
  - discriminate.
  - vm_compute; discriminate.
  - vm_compute; reflexivity.
Defined.

(** Alice asks for her account to be deleted with a password that does
    not verify. *)
Lemma account_deletion_needs_password_witness :
  delete_users_me (Some "wrong") (bearer alice_token) 1000 db1
    = (RespError 401 "INVALID_PASSWORD", db1).
Proof.
  assert (A : authenticate (bearer alice_token) 1000 db1
              = Next (public_columns alice) alice_claims)
    by (vm_compute; reflexivity).
  assert (S : select_user_by_id (r_id (public_columns alice)) db1 = [alice])
    by (vm_compute; reflexivity).
  destruct (account_deletion_needs_password (Some "wrong")
              (bearer alice_token) (public_columns alice) alice_claims
              1000 db1 alice [] A S) as (_ & P & _).
  apply (P "wrong").
  - reflexivity.
  - discriminate.
  - vm_compute; reflexivity.
Defined.

End Witnesses.

(* ================================================================== *)
(** * The remaining behaviour *)

(** ** Regular expressions *)

Lemma append_nil_inv (a b : string) : a ++ b = "" -> a = "" /\ b = "".
Proof. destruct a; simpl; [auto | discriminate]. Qed.

Lemma matches_nil_nullable r s : matches r s -> s = "" -> nullable r = true.
Proof.
  induction 1; intros E; simpl; try reflexivity; try discriminate.
  - apply append_nil_inv in E. destruct E. now rewrite IHmatches1, IHmatches2.
  - now rewrite IHmatches.
  - rewrite IHmatches by assumption. apply orb_true_r.
Qed.

Lemma nullable_matches r : nullable r = true -> matches r "".
Proof.
  induction r; simpl; intros N; try discriminate.
  - constructor.
  - apply andb_true_iff in N. destruct N.
    change "" with ("" ++ ""). constructor; auto.
  - apply orb_true_iff in N. destruct N; [apply MAltL | apply MAltR]; auto.
  - constructor.
Qed.

Lemma matches_deriv_intro r s' :
  matches r s' -> forall c s, s' = String c s -> matches (deriv c r) s.
Proof.
  induction 1; intros c0 s0 E; simpl; try discriminate.
  - injection E as -> <-. rewrite H. constructor.
  - destruct s1 as [|c1 s1]; simpl in E.
    + subst s2. rewrite (matches_nil_nullable _ _ H eq_refl).
      apply MAltR. now apply IHmatches2.
    + injection E as -> <-.
      destruct (nullable r1); [apply MAltL|]; constructor; auto.
  - apply MAltL. auto.
  - apply MAltR. auto.
  - destruct s1 as [|c1 s1]; simpl in E.
    + now apply IHmatches2.
    + injection E as -> <-. constructor; auto.
Qed.

Lemma matches_deriv_elim r : forall c s,
  matches (deriv c r) s -> matches r (String c s).
Proof.
  induction r; intros c s M; simpl in M.
  - inversion M.
  - inversion M.
  - destruct (p c) eqn:P; inversion M; subst. now constructor.
  - destruct (nullable r1) eqn:N.
    + inversion M; subst.
      * match goal with X : matches (Seq _ _) _ |- _ => inversion X; subst end.
        change (String c (s1 ++ s2)) with (String c s1 ++ s2).
        constructor; auto.
      * change (String c s) with ("" ++ String c s).
        constructor; [now apply nullable_matches | auto].
    + inversion M; subst.
      change (String c (s1 ++ s2)) with (String c s1 ++ s2).
      constructor; auto.
  - inversion M; subst; [apply MAltL | apply MAltR]; auto.
  - inversion M; subst.
    change (String c (s1 ++ s2)) with (String c s1 ++ s2).
    constructor; auto.
Qed.

(** The derivative matcher decides the denotation. *)
Lemma regex_test_matches r s : regex_test r s = true <-> matches r s.
Proof.
  revert r. induction s as [|c s IH]; intros r; simpl.
  - split; [apply nullable_matches | intros M; now apply matches_nil_nullable with ""].
  - rewrite IH. split; [apply matches_deriv_elim |].
    intros M. now apply matches_deriv_intro with (String c s).
Qed.

Lemma matches_Seq_inv r1 r2 s :
  matches (Seq r1 r2) s <->
  exists s1 s2, s = s1 ++ s2 /\ matches r1 s1 /\ matches r2 s2.
Proof.
  split.
  - intros M. inversion M; subst. eauto.
  - intros (s1 & s2 & -> & M1 & M2). now constructor.
Qed.

Lemma matches_Char_inv p s :
  matches (Char p) s <-> exists c, s = String c "" /\ p c = true.
Proof.
  split.
  - intros M. inversion M; subst. eauto.
  - intros (c & -> & P). now constructor.
Qed.

Lemma matches_Star_Char p s :
  matches (Star (Char p)) s <-> all_chars p s = true.
Proof.
  split.
  - intros M. remember (Star (Char p)) as r eqn:R.
    induction M; try discriminate; [reflexivity|].
    injection R as ->. inversion M1; subst. simpl.
    rewrite IHM2 by reflexivity. now rewrite H0.
  - induction s as [|c s IH]; simpl; intros A; [constructor|].
    apply andb_true_iff in A. destruct A as [P A].
    change (String c s) with (String c "" ++ s).
    constructor; [now constructor | auto].
Qed.

(** [[p]+] matches the non-empty strings over [p]. *)
Lemma matches_Plus_Char p s :
  matches (Plus (Char p)) s <-> s <> "" /\ all_chars p s = true.
Proof.
  unfold Plus. rewrite matches_Seq_inv. split.
  - intros (s1 & s2 & -> & M1 & M2).
    apply matches_Char_inv in M1. destruct M1 as (c & -> & P).
    apply matches_Star_Char in M2. simpl. rewrite P, M2.
    split; [discriminate | reflexivity].
  - intros [N A]. destruct s as [|c s]; [contradiction|].
    simpl in A. apply andb_true_iff in A. destruct A as [P A].
    exists (String c ""), s. split; [reflexivity|].
    split; [now constructor | now apply matches_Star_Char].
Qed.

(** X1.  The address test of signup accepts exactly the strings
    [local@domain.tld] in which the three parts are non-empty and contain
    neither white space nor ["@"] (the domain part may itself contain
    dots). *)
Theorem emailRegex_accepts_local_at_domain_dot_tld :
  forall email : string,
    regex_test emailRegex email = true <->
    exists local domain tld,
      email = local ++ "@" ++ domain ++ "." ++ tld /\
      (local <> "" /\ all_chars not_space_or_at local = true) /\
      (domain <> "" /\ all_chars not_space_or_at domain = true) /\
      (tld <> "" /\ all_chars not_space_or_at tld = true).
Proof.
  intros email. rewrite regex_test_matches. unfold emailRegex.
  rewrite matches_Seq_inv. split.
  - intros (a & r1 & -> & Ma & M1).
    apply matches_Seq_inv in M1. destruct M1 as (at_ & r2 & -> & Mat & M2).
    apply matches_Seq_inv in M2. destruct M2 as (b & r3 & -> & Mb & M3).
    apply matches_Seq_inv in M3. destruct M3 as (dot & c & -> & Mdot & Mc).
    apply matches_Char_inv in Mat. destruct Mat as (x & -> & X).
    apply matches_Char_inv in Mdot. destruct Mdot as (y & -> & Y).
    apply Ascii.eqb_eq in X. apply Ascii.eqb_eq in Y. subst x y.
    apply matches_Plus_Char in Ma, Mb, Mc.
    exists a, b, c. auto.
  - intros (a & b & c & -> & Pa & Pb & Pc).
    apply matches_Plus_Char in Pa, Pb, Pc.
    exists a, ("@" ++ b ++ "." ++ c). split; [reflexivity|]. split; [exact Pa|].
    apply matches_Seq_inv. exists "@", (b ++ "." ++ c).
    split; [reflexivity|]. split; [constructor; reflexivity|].
    apply matches_Seq_inv. exists b, ("." ++ c).
    split; [reflexivity|]. split; [exact Pb|].
    apply matches_Seq_inv. exists ".", c.
    split; [reflexivity|]. split; [constructor; reflexivity | exact Pc].
Qed.

(** ** The session authority *)

Lemma filter_all_true {A} (f : A -> bool) (l : list A) :
  (forall x, In x l -> f x = true) -> filter f l = l.
Proof.
  induction l as [|a l IH]; simpl; intros Hx; [reflexivity|].
  rewrite (Hx a (or_introl eq_refl)), IH; [reflexivity|].
  intros x Hin. apply Hx. now right.
Qed.

Lemma filter_filter_weaker {A} (f g : A -> bool) (l : list A) :
  (forall x, In x l -> f x = true -> g x = true) ->
  filter f (filter g l) = filter f l.
Proof.
  induction l as [|a l IH]; simpl; intros Hx; [reflexivity|].
  assert (IH' : filter f (filter g l) = filter f l).
  { apply IH. intros x Hin. apply Hx. now right. }
  destruct (g a) eqn:G; simpl.
  - now rewrite IH'.
  - destruct (f a) eqn:F; [|exact IH'].
    rewrite (Hx a (or_introl eq_refl) F) in G. discriminate.
Qed.

Lemma set_sessions_same db : set_sessions db (sessions db) = db.
Proof. now destruct db. Qed.

Section SessionAuthority.
Context `{JwtLib} `{Env}.


(** X3.  A bearer token is let through exactly when it verifies, a session
    row with its [jti] exists whose [expires_at] is still ahead, and the
    user it names exists; [req.user] is then made of that user's public
    columns. *)
Theorem authenticate_accepts_iff :
  forall (token : string) (now : Z) (db : database)
         (user : req_user) (decoded : claims),
    authenticate (bearer token) now db = Next user decoded <->
    verifyToken token now = Some decoded /\
    (exists s, In s (sessions db) /\ s_token_jti s = c_jti decoded /\
               now < s_expires_at s) /\
    (exists row rest, select_user_by_id (c_id decoded) db = row :: rest /\
                      user = public_columns row).
Proof.
  intros token now db user decoded. rewrite authenticate_bearer. split.
  - destruct (verifyToken token now) as [d|]; [|discriminate].
    destruct (sessionCheck (c_jti d) now db) as [|s ss] eqn:S; [discriminate|].
    destruct (select_user_by_id (c_id d) db) as [|row rest] eqn:U;
      [discriminate|].
    intros E. injection E as <- <-. split; [reflexivity|]. split.
    + apply filter_hd_sat in S. destruct S as [Hs Hin].
      apply andb_true_iff in Hs. destruct Hs as [Hj Ht].
      apply String.eqb_eq in Hj. apply Z.ltb_lt in Ht. eauto.
    + eauto.
  - intros (-> & (s & Hin & Hj & Ht) & (row & rest & -> & ->)).
    destruct (sessionCheck (c_jti decoded) now db) eqn:S; [|reflexivity].
    exfalso. unfold sessionCheck in S.
    pose proof (proj1 (filter_nil_iff _ _) S s Hin) as F. cbv beta in F.
    apply String.eqb_eq in Hj. apply Z.ltb_lt in Ht.
    rewrite Hj, Ht in F. discriminate.
Qed.

(** X4.  [revokeSession] is idempotent, and revoking an identifier no row
    carries changes nothing. *)
Theorem revokeSession_idempotent :
  forall (jti : string) (db : database),
    revokeSession jti (revokeSession jti db) = revokeSession jti db /\
    ((forall s, In s (sessions db) -> s_token_jti s <> jti) ->
     revokeSession jti db = db).
Proof.
  intros jti db. split.
  - unfold revokeSession, set_sessions.
    cbn [users sessions items uploads sessions_id_seq].
    f_equal. apply filter_all_true. intros s Hin.
    apply filter_In in Hin. tauto.
  - intros Hx. unfold revokeSession. rewrite filter_all_true.
    + apply set_sessions_same.
    + intros s Hin. apply negb_true_iff, String.eqb_neq. auto.
Qed.

Lemma sessionCheck_revoke_other jti jti' now db :
  jti' <> jti ->
  sessionCheck jti' now (revokeSession jti db) = sessionCheck jti' now db.
Proof.
  intros N. unfold sessionCheck, revokeSession. cbn [sessions set_sessions].
  apply filter_filter_weaker. intros s _ F.
  apply andb_true_iff in F. destruct F as [F _].
  apply String.eqb_eq in F. apply negb_true_iff, String.eqb_neq. congruence.
Qed.

(** X5.  Logging out deletes the presenting session only: a token with
    another [jti] is treated by [authenticate] after the logout as it was
    before. *)
Theorem logout_leaves_other_sessions :
  forall (token other : string) (user : req_user) (decoded d' : claims)
         (now now' : Z) (db : database),
    authenticate (bearer token) now db = Next user decoded ->
    verifyToken other now' = Some d' ->
    c_jti d' <> c_jti decoded ->
    authenticate (bearer other) now'
                 (snd (post_auth_logout (bearer token) now db))
      = authenticate (bearer other) now' db.
Proof.
  intros token other user decoded d' now now' db A V N.
  unfold post_auth_logout. rewrite (protected_Next _ _ _ _ _ _ A).
  unfold logout_handler. cbn [snd].
  rewrite !authenticate_bearer, V.
  now rewrite sessionCheck_revoke_other, select_user_revokeSession.
Qed.

Lemma sessionCheck_cleanup jti now now' db :
  now <= now' ->
  sessionCheck jti now' (fst (cleanupExpiredSessions now db))
    = sessionCheck jti now' db.
Proof.
  intros L. unfold sessionCheck, cleanupExpiredSessions.
  cbn [fst sessions set_sessions].
  apply filter_filter_weaker. intros s _ F.
  apply andb_true_iff in F. destruct F as [_ F]. apply Z.ltb_lt in F.
  apply negb_true_iff, Z.ltb_ge. lia.
Qed.

(** X6.  The sweep is invisible to validation: at the instant of the sweep
    and at any later one, [authenticate] and [optionalAuth] treat every
    request on the swept store as on the store before the sweep. *)
Theorem cleanup_is_invisible_to_validation :
  forall (hdr : option string) (now now' : Z) (db : database),
    now <= now' ->
    authenticate hdr now' (fst (cleanupExpiredSessions now db))
      = authenticate hdr now' db /\
    optionalAuth hdr now' (fst (cleanupExpiredSessions now db))
      = optionalAuth hdr now' db.
Proof.
  intros hdr now now' db L. split; [|reflexivity].
  unfold authenticate. destruct hdr as [h|]; [|reflexivity].
  destruct (negb (truthy_string (Some h)) || negb (startsWith h "Bearer "));
    [reflexivity|].
  destruct (verifyToken _ _) as [d|]; [|reflexivity].
  now rewrite sessionCheck_cleanup.
Qed.

End SessionAuthority.

(** X7.  The count the sweep reports is the number of session rows it
    removed, and a second sweep at the same or an earlier instant removes
    nothing. *)
Theorem cleanup_reports_removed_rows :
  forall (now now2 : Z) (db : database),
    now2 <= now ->
    let swept := fst (cleanupExpiredSessions now db) in
    snd (cleanupExpiredSessions now db)
      = Z.of_nat (List.length (sessions db))
        - Z.of_nat (List.length (sessions swept)) /\
    cleanupExpiredSessions now2 swept = (swept, 0).
Proof.
  intros now now2 db L swept. split; [apply cleanup_rowCount|].
  assert (K : forall s, In s (sessions swept) -> (s_expires_at s <? now2) = false).
  { intros s Hin. subst swept. simpl in Hin. apply filter_In in Hin.
    destruct Hin as [_ N]. apply negb_true_iff, Z.ltb_ge in N.
    apply Z.ltb_ge. lia. }
  unfold cleanupExpiredSessions. f_equal.
  - rewrite filter_all_true; [apply set_sessions_same|].
    intros s Hin. now rewrite (K s Hin).
  - replace (filter _ (sessions swept)) with (@nil session_row); [reflexivity|].
    symmetry. apply filter_nil_iff. exact K.
Qed.


Lemma sessionCheck_cons_app jti now ss extra s rest :
  filter (fun s => String.eqb (s_token_jti s) jti && (now <? s_expires_at s)) ss
    = s :: rest ->
  exists s' rest',
    filter (fun s => String.eqb (s_token_jti s) jti && (now <? s_expires_at s))
           (ss ++ extra) = s' :: rest'.
Proof. intros E. rewrite filter_app, E. simpl. eauto. Qed.

Section IssuanceExtras.
Context `{JwtContract} `{Env}.

(** X9.  Sessions are independent: issuing a token (for the same or for
    another user) leaves every request that [authenticate] let through
    before let through in the same way afterwards. *)
Theorem issue_keeps_accepted_requests :
  forall (hdr : option string) (t : Z) (u : req_user) (d : claims)
         (userId : Z) (email : string) (now : Z) (db : database)
         (token : string) (db' : database),
    issue userId email now db = Some (token, db') ->
    authenticate hdr t db = Next u d ->
    authenticate hdr t db' = Next u d.
Proof.
  intros hdr t u d userId email now db token db' I A.
  apply issue_inv in I. destruct I as [_ C]. unfold createSession in C.
  apply insert_session_inv in C. destruct C as (_ & _ & _ & Us & _ & _ & Ss).
  unfold authenticate in *. destruct hdr as [h|]; [|discriminate].
  destruct (negb (truthy_string (Some h)) || negb (startsWith h "Bearer "));
    [discriminate|].
  destruct (verifyToken _ _) as [d0|]; [|discriminate].
  unfold sessionCheck, select_user_by_id in *. rewrite Ss, Us.
  destruct (filter _ (sessions db)) as [|s rest] eqn:S; [discriminate|].
  destruct (sessionCheck_cons_app _ _ _
              [ {| s_id := sessions_id_seq db; s_user_id := userId;
                   s_token_jti := jti_of userId now;
                   s_expires_at := now + 7 * 86400000;
                   s_created_at := now |} ] _ _ S) as (s' & rest' & ->).
  exact A.
Qed.

End IssuanceExtras.

(** X10.  The identifiers [generateToken] builds for non-negative user ids
    and clock readings coincide only for the same user in the same
    millisecond. *)
Theorem token_ids_coincide_only_for_same_user_and_millisecond :
  forall u t u' t' : Z,
    0 <= u -> 0 <= t -> 0 <= u' -> 0 <= t' ->
    jti_of u t = jti_of u' t' ->
    u = u' /\ t = t'.
Proof. exact jti_of_inj. Qed.

Section RefreshExtras.
Context `{JwtContract} `{Env}.

(** X11.  A refresh whose new identifier differs from the presented
    token's supersedes it: the answer is the token [generateToken] makes
    for the same user, which [authenticate] accepts until its own expiry,
    and the presented token is refused with 401 at every instant from then
    on. *)
Theorem refresh_with_new_id_supersedes_token :
  forall (token : string) (user : req_user) (decoded : claims) (now : Z)
         (db : database) (newToken : string) (db' : database),
    authenticate (bearer token) now db = Next user decoded ->
    post_auth_refresh (bearer token) now db = (RespToken 200 newToken, db') ->
    c_jti decoded <> jti_of (r_id user) now ->
    newToken = generateToken (r_id user) (r_email user) now /\
    (forall now', now' / 1000 < now / 1000 + JWT_EXPIRES_IN ->
       exists u d, authenticate (bearer newToken) now' db' = Next u d /\
                   r_id u = r_id user) /\
    (forall t, exists code,
       authenticate (bearer token) t db' = Rejected 401 code).
Proof.
  intros token user decoded now db newToken db' A R N.
  destruct (refresh_supersedes_old_token _ _ _ _ _ _ _ A R) as [New Old].
  destruct (refresh_inv _ _ _ _ _ _ _ A R) as [I _].
  apply issue_inv in I. destruct I as [-> _].
  split; [reflexivity|]. split; [exact New|].
  intros t. destruct (Old N t) as [E|E]; rewrite E; eauto.
Qed.


End RefreshExtras.

Section OptionalExtras.
Context `{JwtLib} `{Env}.

(** X13.  The optional middleware attaches an identity only for a bearer
    token that verifies and names an existing user, whose public columns
    it attaches; and it attaches the same identity as [authenticate]
    whenever [authenticate] lets the request through. *)
Theorem optionalAuth_attaches_verified_users :
  forall (hdr : option string) (now : Z) (db : database),
    (forall u d, optionalAuth hdr now db = Some (u, d) ->
       exists h row rest,
         hdr = Some h /\ startsWith h "Bearer " = true /\
         verifyToken (substring_from 7 h) now = Some d /\
         select_user_by_id (c_id d) db = row :: rest /\
         u = public_columns row /\ r_id u = c_id d) /\
    (forall u d, authenticate hdr now db = Next u d ->
       optionalAuth hdr now db = Some (u, d)).
Proof.
  intros hdr now db. split.
  - unfold optionalAuth. intros u d E.
    destruct hdr as [h|]; [|discriminate].
    destruct (truthy_string (Some h)); [|discriminate].
    destruct (startsWith h "Bearer ") eqn:P; [|discriminate]. cbn [andb] in E.
    destruct (verifyToken _ _) as [d0|] eqn:V; [|discriminate].
    destruct (select_user_by_id _ _) as [|row rest] eqn:U; [discriminate|].
    injection E as <- <-.
    pose proof (filter_hd_sat _ _ _ _ U) as [Hid _]. apply Z.eqb_eq in Hid.
    exists h, row, rest. auto 10.
  - intros u d A. unfold optionalAuth_spec.
    apply optionalAuth_spec_le. unfold optionalAuth_spec. now rewrite A.
Qed.

End OptionalExtras.

(** ** Signup and login *)

Module MoreReferenceFacts.
Import Reference.

#[export] Instance bcrypt_contract : BcryptContract.
Proof.
  split. intros password rounds. simpl. apply String.eqb_refl.
Qed.

End MoreReferenceFacts.



Section SignupLoginFacts.
Context `{JwtContract} `{Env} `{BcryptLib}.






End SignupLoginFacts.

Section SignupThenLogin.
Context `{JwtContract} `{Env} `{BcryptContract}.


End SignupThenLogin.

(** ** Items *)

Lemma insert_desc_perm x l : Permutation (insert_desc x l) (x :: l).
Proof.
  induction l as [|y t IH]; simpl; [reflexivity|].
  destruct (i_created_at y <? i_created_at x); [reflexivity|].
  rewrite IH. apply perm_swap.
Qed.

Lemma order_by_created_at_desc_perm l :
  Permutation (order_by_created_at_desc l) l.
Proof.
  induction l as [|x l IH]; simpl; [reflexivity|].
  rewrite insert_desc_perm. now constructor.
Qed.

Lemma insert_desc_sorted x l :
  StronglySorted newer_first l -> StronglySorted newer_first (insert_desc x l).
Proof.
  induction 1 as [|y t S IH F]; simpl.
  - constructor; constructor.
  - destruct (i_created_at y <? i_created_at x) eqn:L.
    + apply Z.ltb_lt in L. constructor; [now constructor|].
      constructor; [unfold newer_first; lia|].
      eapply Forall_impl; [|exact F]. unfold newer_first. intros; lia.
    + apply Z.ltb_ge in L. constructor; [exact IH|].
      apply Forall_forall. intros z Hz. apply In_insert_desc in Hz.
      destruct Hz as [->|Hz]; [exact L|].
      rewrite Forall_forall in F. now apply F.
Qed.

Lemma order_by_created_at_desc_sorted l :
  StronglySorted newer_first (order_by_created_at_desc l).
Proof.
  induction l as [|x l IH]; simpl; [constructor | now apply insert_desc_sorted].
Qed.

Lemma StronglySorted_app_inv {A} (R : A -> A -> Prop) (l1 l2 : list A) :
  StronglySorted R (l1 ++ l2) ->
  StronglySorted R l1 /\ (forall x y, In x l1 -> In y l2 -> R x y).
Proof.
  induction l1 as [|a l1 IH]; simpl; intros S.
  - split; [constructor | intros x y []].
  - inversion S as [|? ? S' F]; subst. destruct (IH S') as [S1 X].
    rewrite Forall_forall in F. split.
    + constructor; [exact S1|]. apply Forall_forall. intros z Hz.
      apply F, in_or_app. now left.
    + intros x y [<-|Hx] Hy; [apply F, in_or_app; now right | now apply X].
Qed.



Section ItemExtras.
Context `{JwtLib} `{Env}.

(** X19.  With an identity, [GET /api/items] and [GET /api/users/me/items]
    give the same list: the rows of the table owned by the requester, each
    as often as it is stored, newest first. *)
Theorem own_items_are_listed_newest_first :
  forall (hdr : option string) (now : Z) (db : database)
         (user : req_user) (tk : claims),
    authenticate hdr now db = Next user tk ->
    exists rows,
      get_items hdr now db = RespItems 200 rows /\
      get_users_me_items hdr now db = (RespItems 200 rows, db) /\
      Permutation rows
        (filter (fun i => sql_eq (i_user_id i) (r_id user)) (items db)) /\
      StronglySorted newer_first rows /\
      (forall i, In i rows <->
                 In i (items db) /\ i_user_id i = Some (r_id user)).
Proof.
  intros hdr now db user tk A. eexists. split; [|split; [|split; [|split]]].
  - unfold get_items. rewrite (authenticate_Next_optionalAuth _ _ _ _ _ A).
    reflexivity.
  - unfold get_users_me_items. rewrite (protected_Next _ _ _ _ _ _ A).
    reflexivity.
  - apply order_by_created_at_desc_perm.
  - apply order_by_created_at_desc_sorted.
  - intros i. rewrite In_order_by_created_at_desc, filter_In.
    unfold sql_eq. destruct (i_user_id i) as [o|].
    + rewrite Z.eqb_eq. intuition congruence.
    + intuition congruence.
Qed.

(** X20.  Without an identity, [GET /api/items] lists the summaries of the
    ten newest rows of the table (of all of them when there are fewer),
    newest first: no row left out is newer than a row listed. *)
Theorem anonymous_listing_is_the_ten_newest :
  forall (hdr : option string) (now : Z) (db : database),
    optionalAuth hdr now db = None ->
    exists top rest,
      get_items hdr now db = RespSummaries 200 (map summary_columns top) /\
      Permutation (top ++ rest) (items db) /\
      List.length top = Nat.min 10 (List.length (items db)) /\
      StronglySorted newer_first top /\
      (forall x y, In x top -> In y rest -> i_created_at y <= i_created_at x).
Proof.
  intros hdr now db O.
  set (sorted := order_by_created_at_desc (items db)).
  exists (firstn 10 sorted), (skipn 10 sorted).
  pose proof (order_by_created_at_desc_sorted (items db)) as S. fold sorted in S.
  rewrite <- (firstn_skipn 10 sorted) in S.
  apply StronglySorted_app_inv in S. destruct S as [S X].
  split; [unfold get_items; now rewrite O|].
  split; [rewrite firstn_skipn; apply order_by_created_at_desc_perm|].
  split; [|split; [exact S | exact X]].
  rewrite length_firstn. unfold sorted.
  now rewrite length_order_by_created_at_desc.
Qed.

Lemma insert_item_inv newId name description userId metadata now db db' :
  insert_item newId name description userId metadata now db = Some db' ->
  select_item_by_id newId db = [] /\
  db' = set_items db
          (items db ++
             [ {| i_id := newId; i_name := name; i_description := description;
                  i_user_id := Some userId; i_metadata := metadata;
                  i_created_at := now; i_updated_at := now |} ]).
Proof.
  unfold insert_item. intros E.
  destruct (existsb (fun i => i_id i =? newId) (items db)) eqn:I; [discriminate|].
  destruct (existsb _ (users db)); [|discriminate].
  injection E as <-. split; [|reflexivity].
  apply filter_nil_iff. intros i Hin.
  destruct (i_id i =? newId) eqn:X; [|reflexivity].
  assert (Y : existsb (fun i => i_id i =? newId) (items db) = true).
  { apply existsb_exists. eauto. }
  congruence.
Qed.

(** X21.  [POST /api/items] either answers with an error and changes
    nothing, or answers 201 having appended one row that carries the given
    non-empty name and the requester as owner.  That row is then read by
    its creator, and, the creator's id being a [SERIAL] value, refused to
    every other user and to requests without identity. *)
Theorem created_item_belongs_to_requester :
  forall (body : item_body) (newId : Z) (user : req_user) (tk : claims)
         (now : Z) (db : database) (resp : response) (db' : database),
    post_item_handler body newId user tk now db = (resp, db') ->
    (db' = db /\ exists st code, resp = RespError st code) \/
    (exists row,
       resp = RespItem 201 (Some row) /\
       items db' = (items db ++ [row])%list /\
       users db' = users db /\ sessions db' = sessions db /\
       uploads db' = uploads db /\
       i_id row = newId /\ new_name body = Some (i_name row) /\
       i_name row <> "" /\ i_user_id row = Some (r_id user) /\
       get_item_handler newId (Some user) db' = RespItem 200 (Some row) /\
       (0 < r_id user ->
        get_item_handler newId None db' = RespError 403 "FORBIDDEN" /\
        forall other, r_id other <> r_id user ->
          get_item_handler newId (Some other) db' = RespError 403 "FORBIDDEN")).
Proof.
  intros body newId user tk now db resp db'. unfold post_item_handler.
  destruct (new_name body) as [name|] eqn:N;
    [|intros E; injection E as <- <-; left; eauto].
  destruct (truthy_string (Some name)) eqn:T;
    [|intros E; injection E as <- <-; left; eauto]. cbn [negb].
  destruct (insert_item _ _ _ _ _ _ _) as [d|] eqn:I;
    [|intros E; injection E as <- <-; left; eauto].
  intros E. injection E as <- <-. right.
  apply insert_item_inv in I. destruct I as [Fresh ->].
  assert (S : forall its,
            select_item_by_id newId (set_items db (items db ++ [its]))
            = filter (fun i => i_id i =? newId) [its]).
  { intros its. unfold select_item_by_id in *. cbn [set_items items].
    now rewrite filter_app, Fresh. }
  eexists. rewrite S. cbn [filter i_id]. rewrite Z.eqb_refl. cbn [hd_error].
  split; [reflexivity|]. cbn [set_items items users sessions uploads
                               i_id i_name i_user_id].
  repeat (split; [reflexivity|]).
  split. { simpl in T. apply negb_true_iff in T. now apply String.eqb_neq. }
  split; [reflexivity|].
  unfold get_item_handler. rewrite S. cbn [filter i_id]. rewrite Z.eqb_refl.
  cbn [i_user_id truthy_int strict_neq]. split.
  - rewrite Z.eqb_refl. cbn [negb]. now rewrite andb_false_r.
  - intros P.
    assert (Tr : negb (r_id user =? 0) = true)
      by (apply negb_true_iff, Z.eqb_neq; lia).
    rewrite Tr. split; [reflexivity|]. intros other O.
    assert (Ne : negb (r_id user =? r_id other) = true)
      by (apply negb_true_iff, Z.eqb_neq; congruence).
    now rewrite Ne.
Qed.


(** X23.  [DELETE /api/items/:id] by the owner answers 200; afterwards the
    item is not found any more, the upload rows attached to it are gone
    with it, and every other item, every other upload, the users and the
    sessions are as before. *)
Theorem owner_delete_removes_item_and_its_uploads :
  forall (id : Z) (user : req_user) (tk : claims) (now : Z) (db : database)
         (row : item_row) (rest : list item_row),
    select_item_by_id id db = row :: rest ->
    i_user_id row = Some (r_id user) ->
    let out := delete_item_handler id user tk now db in
    fst out = RespMessage 200 "Item deleted successfully" /\
    select_item_by_id id (snd out) = [] /\
    (forall viewer, get_item_handler id viewer (snd out)
                    = RespError 404 "NOT_FOUND") /\
    (forall u, In u (uploads (snd out)) <->
               In u (uploads db) /\ up_item_id u <> Some id) /\
    (forall j, j <> id ->
       select_item_by_id j (snd out) = select_item_by_id j db) /\
    users (snd out) = users db /\ sessions (snd out) = sessions db.
Proof.
  intros id user tk now db row rest S O out.
  assert (F : strict_neq (i_user_id row) (r_id user) = false).
  { rewrite O. simpl. now rewrite Z.eqb_refl. }
  subst out. unfold delete_item_handler. rewrite S, F. cbn [fst snd].
  assert (G : select_item_by_id id
                (set_uploads
                   (set_items db (filter (fun i => negb (i_id i =? id)) (items db)))
                   (filter (fun u => negb (sql_eq (up_item_id u) id)) (uploads db)))
              = []).
  { unfold select_item_by_id. cbn [set_uploads set_items items].
    apply filter_nil_iff. intros i Hin. apply filter_In in Hin.
    destruct Hin as [_ N]. now apply negb_true_iff in N. }
  split; [reflexivity|]. split; [exact G|].
  split; [intros viewer; unfold get_item_handler; now rewrite G|].
  split; [|split; [|split; reflexivity]].
  - intros u. cbn [set_uploads uploads]. rewrite filter_In, negb_true_iff.
    unfold sql_eq. destruct (up_item_id u) as [k|].
    + rewrite Z.eqb_neq. intuition congruence.
    + intuition congruence.
  - intros j N. unfold select_item_by_id. cbn [set_uploads set_items items].
    apply filter_filter_weaker. intros i _ E. apply Z.eqb_eq in E.
    apply negb_true_iff, Z.eqb_neq. congruence.
Qed.

(** X24.  A legacy item (no owner) is handed out by [GET /api/items/:id]
    to every caller, with or without identity, and cannot be changed
    through the API: [PUT] and [DELETE] answer 403 to every authenticated
    user and leave the store as it was. *)
Theorem legacy_items_are_public_and_frozen :
  forall (id : Z) (db : database) (row : item_row) (rest : list item_row),
    select_item_by_id id db = row :: rest ->
    i_user_id row = None ->
    (forall viewer, get_item_handler id viewer db = RespItem 200 (Some row)) /\
    (forall hdr now user tk body,
       authenticate hdr now db = Next user tk ->
       put_item id body hdr now db = (RespError 403 "FORBIDDEN", db) /\
       delete_item id hdr now db = (RespError 403 "FORBIDDEN", db)).
Proof.
  intros id db row rest S O. split.
  - intros viewer. unfold get_item_handler. now rewrite S, O.
  - intros hdr now user tk body A. unfold put_item, delete_item.
    rewrite !(protected_Next _ _ _ _ _ _ A).
    unfold put_item_handler, delete_item_handler. now rewrite S, O.
Qed.

End ItemExtras.

(** ** Users and uploads *)

Lemma select_user_map id f db :
  (forall u, u_id (f u) = u_id u) ->
  select_user_by_id id (set_users db (map f (users db)))
    = map f (select_user_by_id id db).
Proof.
  intros Pid. unfold select_user_by_id. cbn [set_users users].
  induction (users db) as [|a l IH]; simpl; [reflexivity|].
  rewrite Pid. destruct (u_id a =? id); simpl; now rewrite IH.
Qed.

Lemma u_id_set_password id h now u : u_id (set_password id h now u) = u_id u.
Proof. unfold set_password. now destruct (u_id u =? id). Qed.

Lemma public_columns_set_password id h now u :
  public_columns (set_password id h now u) = public_columns u.
Proof. unfold set_password. now destruct (u_id u =? id). Qed.


Lemma In_insert_upload_desc x y l :
  In y (insert_upload_desc x l) <-> y = x \/ In y l.
Proof.
  induction l as [|a l IH]; simpl.
  - intuition congruence.
  - destruct (up_created_at a <? up_created_at x); simpl; rewrite ?IH;
      intuition congruence.
Qed.

Lemma In_order_uploads_by_created_at_desc y l :
  In y (order_uploads_by_created_at_desc l) <-> In y l.
Proof.
  induction l as [|a l IH]; simpl; [reflexivity|].
  rewrite In_insert_upload_desc, IH. intuition congruence.
Qed.

Section UserExtras.
Context `{JwtLib} `{Env} `{BcryptLib}.

(** Rewriting user rows without touching ids or public columns does not
    change what [authenticate] does. *)
Lemma authenticate_users_map f hdr t db :
  (forall u, u_id (f u) = u_id u) ->
  (forall u, public_columns (f u) = public_columns u) ->
  authenticate hdr t (set_users db (map f (users db))) = authenticate hdr t db.
Proof.
  intros Pid Pub. unfold authenticate. destruct hdr as [h|]; [|reflexivity].
  destruct (negb (truthy_string (Some h)) || negb (startsWith h "Bearer "));
    [reflexivity|].
  destruct (verifyToken _ _) as [d|]; [|reflexivity].
  change (sessionCheck (c_jti d) t (set_users db (map f (users db))))
    with (sessionCheck (c_jti d) t db).
  destruct (sessionCheck _ _ _); [reflexivity|].
  rewrite (select_user_map _ _ _ Pid).
  destruct (select_user_by_id (c_id d) db); [reflexivity|].
  cbn [map]. now rewrite Pub.
Qed.



End UserExtras.

Section PasswordExtras.
Context `{JwtLib} `{Env} `{BcryptContract}.

Lemma password_handler_200_inv body user tk now db msg :
  fst (put_users_me_password_handler body user tk now db) = RespMessage 200 msg ->
  exists new row rest,
    new_password body = Some new /\
    select_user_by_id (r_id user) db = row :: rest /\
    snd (put_users_me_password_handler body user tk now db)
      = set_users db (map (set_password (r_id user) (bcrypt_hash new 10) now)
                          (users db)).
Proof.
  unfold put_users_me_password_handler.
  destruct (negb (truthy_string (current_password body)) ||
            negb (truthy_string (new_password body))); [discriminate|].
  destruct (current_password body); [|discriminate].
  destruct (new_password body) as [new|]; [|discriminate].
  destruct (js_length _ <? 8); [discriminate|].
  destruct (select_user_by_id _ _) as [|row rest] eqn:S; [discriminate|].
  destruct (bcrypt_compare _ _); [|discriminate]. cbn [negb fst snd].
  intros _. exists new, row, rest. auto.
Qed.

(** X26.  A password change answered with 200 stores a hash that verifies
    the new password, and revokes nothing: sessions, items and uploads are
    as before, and every request [authenticate] let through before the
    change (with this or any other token) is let through in the same way
    after it. *)
Theorem password_change_keeps_sessions :
  forall (body : password_body) (hdr : option string) (now : Z)
         (db : database) (user : req_user) (tk : claims),
    authenticate hdr now db = Next user tk ->
    fst (put_users_me_password body hdr now db)
      = RespMessage 200 "Password updated successfully" ->
    let db' := snd (put_users_me_password body hdr now db) in
    (exists new row' rest',
       new_password body = Some new /\
       select_user_by_id (r_id user) db' = row' :: rest' /\
       u_password_hash row' = bcrypt_hash new 10 /\
       bcrypt_compare new (u_password_hash row') = true) /\
    sessions db' = sessions db /\ items db' = items db /\
    uploads db' = uploads db /\
    (forall hdr' t, authenticate hdr' t db' = authenticate hdr' t db).
Proof.
  intros body hdr now db user tk A. cbv zeta.
  unfold put_users_me_password. rewrite (protected_Next _ _ _ _ _ _ A).
  intros R. apply password_handler_200_inv in R.
  destruct R as (new & row & rest & Hn & S & ->).
  split; [|split; [|split; [|split]]]; try reflexivity.
  - rewrite (select_user_map _ _ _ (u_id_set_password _ _ _)), S. cbn [map].
    apply filter_hd_sat in S. destruct S as [Hid _].
    assert (Hh : u_password_hash (set_password (r_id user) (bcrypt_hash new 10) now row)
                 = bcrypt_hash new 10).
    { unfold set_password. now rewrite Hid. }
    eexists new, _, _. split; [exact Hn|]. split; [reflexivity|].
    split; [exact Hh|]. rewrite Hh. apply bcrypt_compare_hash.
  - intros hdr' t. apply authenticate_users_map.
    + apply u_id_set_password.
    + apply public_columns_set_password.
Qed.

End PasswordExtras.

Section DeletionExtras.
Context `{JwtContract} `{Env} `{BcryptLib}.

Lemma delete_handler_200_inv password user tk now db msg :
  fst (delete_users_me_handler password user tk now db) = RespMessage 200 msg ->
  snd (delete_users_me_handler password user tk now db)
    = delete_user_cascade (r_id user) db.
Proof.
  unfold delete_users_me_handler.
  destruct (negb (truthy_string password)); [discriminate|].
  destruct password; [|discriminate].
  destruct (select_user_by_id _ _); [discriminate|].
  destruct (bcrypt_compare _ _); [|discriminate]. reflexivity.
Qed.

(** X27.  After an account deletion answered with 200, the rows that
    remain are exactly the users, sessions and items of the other users;
    the header that was used is answered with 401 by [authenticate] at
    every instant from then on, and the optional middleware attaches nothing
    for it. *)
Theorem deleted_account_is_gone :
  forall (password : option string) (hdr : option string) (now : Z)
         (db : database) (user : req_user) (tk : claims),
    authenticate hdr now db = Next user tk ->
    fst (delete_users_me password hdr now db)
      = RespMessage 200 "Account deleted successfully" ->
    let db' := snd (delete_users_me password hdr now db) in
    (forall u, In u (users db') <-> In u (users db) /\ u_id u <> r_id user) /\
    (forall s, In s (sessions db') <->
               In s (sessions db) /\ s_user_id s <> r_id user) /\
    (forall i, In i (items db') <->
               In i (items db) /\ i_user_id i <> Some (r_id user)) /\
    (forall t, exists code, authenticate hdr t db' = Rejected 401 code) /\
    (forall t, optionalAuth hdr t db' = None).
Proof.
  intros password hdr now db user tk A. cbv zeta.
  unfold delete_users_me. rewrite (protected_Next _ _ _ _ _ _ A).
  intros R. rewrite (delete_handler_200_inv _ _ _ _ _ _ R). clear R.
  apply authenticate_Next_inv in A.
  destruct A as (h & row & rest & srow & -> & V & _ & _ & _ & _ & _ & Hid).
  assert (Gone : forall t d, verifyToken (substring_from 7 h) t = Some d ->
                 select_user_by_id (c_id d) (delete_user_cascade (r_id user) db) = []).
  { intros t d Vt. unfold verifyToken in *.
    rewrite (jwt_verify_clock _ _ _ t _ V) in Vt.
    destruct (t / 1000 <? c_exp tk); [|discriminate]. injection Vt as <-.
    rewrite <- Hid. apply select_user_after_cascade. }
  split; [|split; [|split; [|split]]].
  - intros u. cbn [delete_user_cascade users].
    rewrite filter_In, negb_true_iff, Z.eqb_neq. reflexivity.
  - intros s. cbn [delete_user_cascade sessions].
    rewrite filter_In, negb_true_iff, Z.eqb_neq. reflexivity.
  - intros i. cbn [delete_user_cascade items].
    rewrite filter_In, negb_true_iff. unfold sql_eq.
    destruct (i_user_id i) as [o|].
    + rewrite Z.eqb_neq. intuition congruence.
    + intuition congruence.
  - intros t. unfold authenticate.
    destruct (negb (truthy_string (Some h)) || negb (startsWith h "Bearer "));
      [eauto|].
    destruct (verifyToken _ t) as [d|] eqn:Vt; [|eauto].
    destruct (sessionCheck _ _ _); [eauto|].
    rewrite (Gone t d Vt). eauto.
  - intros t. unfold optionalAuth.
    destruct (truthy_string (Some h) && startsWith h "Bearer "); [|reflexivity].
    destruct (verifyToken _ t) as [d|] eqn:Vt; [|reflexivity].
    now rewrite (Gone t d Vt).
Qed.

End DeletionExtras.

Section UploadExtras.
Context `{JwtLib} `{Env}.

(** X28.  [GET /api/items/:id/uploads] is for the owner of the item: the
    owner gets exactly the upload rows attached to the item, any other
    authenticated user (and everybody for an item without owner) gets 403;
    the store is not changed. *)
Theorem uploads_are_listed_to_the_owner_only :
  forall (id : Z) (hdr : option string) (now : Z) (db : database)
         (user : req_user) (tk : claims) (row : item_row)
         (rest : list item_row),
    authenticate hdr now db = Next user tk ->
    select_item_by_id id db = row :: rest ->
    (i_user_id row <> Some (r_id user) ->
     get_item_uploads id hdr now db = (Fail 403 "FORBIDDEN", db)) /\
    (i_user_id row = Some (r_id user) ->
     exists ups,
       get_item_uploads id hdr now db = (Ok 200 ups, db) /\
       forall u, In u ups <-> In u (uploads db) /\ up_item_id u = Some id).
Proof.
  intros id hdr now db user tk row rest A S.
  unfold get_item_uploads, guarded. rewrite A.
  unfold get_item_uploads_handler. rewrite S. split.
  - intros N.
    assert (F : strict_neq (i_user_id row) (r_id user) = true).
    { unfold strict_neq. destruct (i_user_id row) as [o|]; [|reflexivity].
      apply negb_true_iff, Z.eqb_neq. congruence. }
    now rewrite F.
  - intros O. rewrite O. cbn [strict_neq]. rewrite Z.eqb_refl. cbn [negb].
    eexists. split; [reflexivity|]. intros u.
    rewrite In_order_uploads_by_created_at_desc, filter_In. unfold sql_eq.
    destruct (up_item_id u) as [k|].
    + rewrite Z.eqb_eq. intuition congruence.
    + intuition congruence.
Qed.

End UploadExtras.

(* ================================================================== *)
(** * The remaining behaviour at concrete requests *)

Module MoreWitnesses.
Import Reference ReferenceFacts MoreReferenceFacts Sample MoreSample.


(** Alice logs out; bob's token is treated as before. *)
Lemma logout_leaves_other_sessions_witness :
  authenticate (bearer bob_token) 3000
               (snd (post_auth_logout (bearer alice_token) 3000 db2))
    = authenticate (bearer bob_token) 3000 db2.
Proof.
  apply (logout_leaves_other_sessions alice_token bob_token
           (public_columns alice) alice_claims bob_claims 3000 3000 db2).
  - vm_compute; reflexivity.
  - vm_compute; reflexivity.
  - vm_compute; discriminate.
Defined.

(** A sweep at millisecond 5000 and alice's token a second later. *)
Lemma cleanup_is_invisible_to_validation_witness :
  authenticate (bearer alice_token) 6000
               (fst (cleanupExpiredSessions 5000 db_sweep))
    = authenticate (bearer alice_token) 6000 db_sweep /\
  optionalAuth (bearer alice_token) 6000
               (fst (cleanupExpiredSessions 5000 db_sweep))
    = optionalAuth (bearer alice_token) 6000 db_sweep.
Proof.
  apply (cleanup_is_invisible_to_validation (bearer alice_token) 5000 6000 db_sweep).
  lia.
Defined.

(** Two sweeps at millisecond 5000. *)
Lemma cleanup_reports_removed_rows_witness :
  snd (cleanupExpiredSessions 5000 db_sweep)
    = Z.of_nat (List.length (sessions db_sweep))
      - Z.of_nat (List.length
                    (sessions (fst (cleanupExpiredSessions 5000 db_sweep)))) /\
  cleanupExpiredSessions 5000 (fst (cleanupExpiredSessions 5000 db_sweep))
    = (fst (cleanupExpiredSessions 5000 db_sweep), 0).
Proof.
  apply (cleanup_reports_removed_rows 5000 5000 db_sweep). lia.
Defined.

(** Bob logs in while alice is logged in. *)
Lemma issue_keeps_accepted_requests_witness :
  authenticate (bearer alice_token) 2000 db2
    = Next (public_columns alice) alice_claims.
Proof.
  apply (issue_keeps_accepted_requests (bearer alice_token) 2000
           (public_columns alice) alice_claims 2 "b@b.com" 2000 db1
           bob_token db2).
  - vm_compute; reflexivity.
  - vm_compute; reflexivity.
Defined.

(** The identifier of alice's token. *)
Lemma token_ids_coincide_only_for_same_user_and_millisecond_witness :
  jti_of 1 1000 = jti_of 1 1000 /\ 1 = 1 /\ 1000 = 1000.
Proof.
  split; [reflexivity|].
  apply (token_ids_coincide_only_for_same_user_and_millisecond 1 1000 1 1000);
    try lia. reflexivity.
Defined.

(** Alice refreshes a millisecond after her login. *)
Lemma refresh_with_new_id_supersedes_token_witness :
  generateToken 1 "a@b.com" 1001 = generateToken 1 "a@b.com" 1001 /\
  (forall now', now' / 1000 < 1001 / 1000 + JWT_EXPIRES_IN ->
     exists u d,
       authenticate (bearer (generateToken 1 "a@b.com" 1001)) now'
                    (snd (post_auth_refresh (bearer alice_token) 1001 db1))
         = Next u d /\ r_id u = 1) /\
  (forall t, exists code,
     authenticate (bearer alice_token) t
                  (snd (post_auth_refresh (bearer alice_token) 1001 db1))
       = Rejected 401 code).
Proof.
  apply (refresh_with_new_id_supersedes_token alice_token
           (public_columns alice) alice_claims 1001 db1).
  - vm_compute; reflexivity.
  - vm_compute; reflexivity.
  - vm_compute; discriminate.
Defined.







(** Bob lists his items. *)
Lemma own_items_are_listed_newest_first_witness :
  exists rows,
    get_items (bearer bob_token) 3000 db2 = RespItems 200 rows /\
    get_users_me_items (bearer bob_token) 3000 db2 = (RespItems 200 rows, db2) /\
    Permutation rows
      (filter (fun i => sql_eq (i_user_id i) (r_id (public_columns bob)))
              (items db2)) /\
    StronglySorted newer_first rows /\
    (forall i, In i rows <->
               In i (items db2) /\ i_user_id i = Some (r_id (public_columns bob))).
Proof.
  apply (own_items_are_listed_newest_first (bearer bob_token) 3000 db2
           (public_columns bob) bob_claims).
  vm_compute; reflexivity.
Defined.

(** The listing for a request without header. *)
Lemma anonymous_listing_is_the_ten_newest_witness :
  exists top rest,
    get_items None 0 db0 = RespSummaries 200 (map summary_columns top) /\
    Permutation (top ++ rest) (items db0) /\
    List.length top = Nat.min 10 (List.length (items db0)) /\
    StronglySorted newer_first top /\
    (forall x y, In x top -> In y rest -> i_created_at y <= i_created_at x).
Proof.
  apply (anonymous_listing_is_the_ten_newest None 0 db0). reflexivity.
Defined.

(** Alice creates item 3. *)
Lemma created_item_belongs_to_requester_witness :
  fst (post_item_handler item_y_body 3 (public_columns alice) alice_claims
                         1000 db2)
    = RespItem 201 (Some item_y).
Proof.
  destruct (created_item_belongs_to_requester item_y_body 3
              (public_columns alice) alice_claims 1000 db2
              (RespItem 201 (Some item_y))
              (snd (post_item_handler item_y_body 3 (public_columns alice)
                                      alice_claims 1000 db2)))
    as [[_ (st & code & E)]|(row & E & _)].
  - vm_compute; reflexivity.
  - discriminate E.
  - vm_compute; reflexivity.
Defined.


(** Bob deletes his item, to which an upload is attached. *)
Lemma owner_delete_removes_item_and_its_uploads_witness :
  fst (delete_item_handler 1 (public_columns bob) bob_claims 3000 db3)
    = RespMessage 200 "Item deleted successfully" /\
  select_item_by_id 1
    (snd (delete_item_handler 1 (public_columns bob) bob_claims 3000 db3)) = [].
Proof.
  destruct (owner_delete_removes_item_and_its_uploads 1
              (public_columns bob) bob_claims 3000 db3 item_x [])
    as (R & G & _).
  - vm_compute; reflexivity.
  - reflexivity.
  - split; [exact R | exact G].
Defined.

(** The legacy item 2. *)
Lemma legacy_items_are_public_and_frozen_witness :
  (forall viewer, get_item_handler 2 viewer db2 = RespItem 200 (Some item_legacy)) /\
  (forall hdr now user tk body,
     authenticate hdr now db2 = Next user tk ->
     put_item 2 body hdr now db2 = (RespError 403 "FORBIDDEN", db2) /\
     delete_item 2 hdr now db2 = (RespError 403 "FORBIDDEN", db2)).
Proof.
  apply (legacy_items_are_public_and_frozen 2 db2 item_legacy []).
  - vm_compute; reflexivity.
  - reflexivity.
Defined.


(** Alice changes her password while bob is logged in. *)
Lemma password_change_keeps_sessions_witness :
  sessions (snd (put_users_me_password
                   (mkPasswordBody (Some "Test123!") (Some "NewPass123"))
                   (bearer alice_token) 3000 db2))
    = sessions db2 /\
  authenticate (bearer bob_token) 3000
    (snd (put_users_me_password
            (mkPasswordBody (Some "Test123!") (Some "NewPass123"))
            (bearer alice_token) 3000 db2))
    = authenticate (bearer bob_token) 3000 db2.
Proof.
  destruct (password_change_keeps_sessions
              (mkPasswordBody (Some "Test123!") (Some "NewPass123"))
              (bearer alice_token) 3000 db2 (public_columns alice) alice_claims)
    as (_ & S & _ & _ & K).
  - vm_compute; reflexivity.
  - vm_compute; reflexivity.
  - split; [exact S | exact (K (bearer bob_token) 3000)].
Defined.

(** Bob deletes his account. *)
Lemma deleted_account_is_gone_witness :
  (forall t, exists code,
     authenticate (bearer bob_token) t
       (snd (delete_users_me (Some "Secret42!") (bearer bob_token) 3000 db3))
     = Rejected 401 code) /\
  (forall i,
     In i (items (snd (delete_users_me (Some "Secret42!") (bearer bob_token)
                                       3000 db3))) <->
     In i (items db3) /\ i_user_id i <> Some 2).
Proof.
  destruct (deleted_account_is_gone (Some "Secret42!") (bearer bob_token)
              3000 db3 (public_columns bob) bob_claims)
    as (_ & _ & I & A & _).
  - vm_compute; reflexivity.
  - vm_compute; reflexivity.
  - split; [exact A | exact I].
Defined.

(** Bob and alice ask for the uploads of bob's item. *)
Lemma uploads_are_listed_to_the_owner_only_witness :
  get_item_uploads 1 (bearer alice_token) 3000 db3 = (Fail 403 "FORBIDDEN", db3).
Proof.
  destruct (uploads_are_listed_to_the_owner_only 1 (bearer alice_token) 3000
              db3 (public_columns alice) alice_claims item_x [])
    as [F _].
  - vm_compute; reflexivity.
  - vm_compute; reflexivity.
  - apply F. vm_compute. discriminate.
Defined.

End MoreWitnesses.
